(** * Councillor directory: list view, card and detail view

    A shallow embedding of the React components of the repository
    ([pages/Index.tsx], [components/CouncillorCard.tsx],
    [components/CouncillorDetail.tsx]) over the data model of
    [types/councillor.ts], together with the ECMAScript built-ins they call
    ([encodeURIComponent], [decodeURIComponent], [String.prototype.includes],
    [String.prototype.replace], property lookup on an ordinary object).

    Components are functions from their props (and the bundled store) to a
    tree of rendered elements; a component that can throw returns a
    [completion]. *)

From Stdlib Require PrimFloat.
From Stdlib Require Import ZArith Bool String Ascii Lia List.
Import ListNotations.
Open Scope Z_scope.

(** ** ECMAScript strings and completions *)

(** An ECMAScript string is a finite sequence of 16-bit code units. *)
Definition jsstring := list Z.

Definition is_code_unit (c : Z) : bool := (0 <=? c) && (c <=? 65535).

(** The string literal of the source, as code units (literals in the source
    are ASCII). *)
Definition js (s : string) : jsstring :=
  map (fun a => Z.of_N (N_of_ascii a)) (list_ascii_of_string s).

Fixpoint jsstring_eqb (a b : jsstring) : bool :=
  match a, b with
  | [], [] => true
  | x :: a', y :: b' => (x =? y) && jsstring_eqb a' b'
  | _, _ => false
  end.

(** The errors the embedded code can raise. *)
Inductive JSError := URIError | TypeError.

(** Normal or abrupt completion of an evaluation. *)
Inductive completion (A : Type) :=
| Normal (a : A)
| Throw (e : JSError).
Arguments Normal {A} a.
Arguments Throw {A} e.

Definition bind {A B} (c : completion A) (k : A -> completion B) : completion B :=
  match c with
  | Normal a => k a
  | Throw e => Throw e
  end.

Notation "x <- c ;; k" := (bind c (fun x => k))
  (at level 61, c at next level, right associativity).

(** ** encodeURIComponent and decodeURIComponent (ECMA-262, 19.2.6) *)

Module URI.

Definition percent : Z := 37.

Definition in_range (lo hi c : Z) : bool := (lo <=? c) && (c <=? hi).

(** uriUnreserved: uriAlpha, DecimalDigit and uriMark [- _ . ! ~ * ' ( )]. *)
Definition unreserved (c : Z) : bool :=
  in_range 65 90 c || in_range 97 122 c || in_range 48 57 c
  || existsb (Z.eqb c) [45; 95; 46; 33; 126; 42; 39; 40; 41].

Definition is_high_surrogate (c : Z) : bool := in_range 55296 56319 c.
Definition is_low_surrogate (c : Z) : bool := in_range 56320 57343 c.
Definition is_surrogate (c : Z) : bool := in_range 55296 57343 c.

(** UTF16SurrogatePairToCodePoint. *)
Definition pair_to_code_point (hi lo : Z) : Z :=
  (hi - 55296) * 1024 + (lo - 56320) + 65536.

(** UTF16EncodeCodePoint. *)
Definition UTF16EncodeCodePoint (cp : Z) : jsstring :=
  if cp <=? 65535 then [cp]
  else [(cp - 65536) / 1024 + 55296; (cp - 65536) mod 1024 + 56320].

(** The octets of the UTF-8 encoding of a code point. *)
Definition utf8_encode (cp : Z) : list Z :=
  if cp <=? 127 then [cp]
  else if cp <=? 2047 then [192 + cp / 64; 128 + cp mod 64]
  else if cp <=? 65535 then
    [224 + cp / 4096; 128 + (cp / 64) mod 64; 128 + cp mod 64]
  else
    [240 + cp / 262144; 128 + (cp / 4096) mod 64;
     128 + (cp / 64) mod 64; 128 + cp mod 64].

Definition is_continuation (b : Z) : bool := in_range 128 191 b.

(** The code point of a sequence of octets, when the sequence is the
    UTF-8 encoding of a Unicode scalar value: continuation octets are
    [10xxxxxx], the encoding is the shortest one, and the value is neither
    a surrogate nor above 0x10FFFF. *)
Definition utf8_decode (octets : list Z) : option Z :=
  match octets with
  | [b0; b1] =>
      let v := (b0 - 192) * 64 + (b1 - 128) in
      if is_continuation b1 && (128 <=? v) then Some v else None
  | [b0; b1; b2] =>
      let v := (b0 - 224) * 4096 + (b1 - 128) * 64 + (b2 - 128) in
      if is_continuation b1 && is_continuation b2
         && (2048 <=? v) && negb (is_surrogate v)
      then Some v else None
  | [b0; b1; b2; b3] =>
      let v := (b0 - 240) * 262144 + (b1 - 128) * 4096
               + (b2 - 128) * 64 + (b3 - 128) in
      if is_continuation b1 && is_continuation b2 && is_continuation b3
         && (65536 <=? v) && (v <=? 1114111)
      then Some v else None
  | _ => None
  end.

(** Upper-case hexadecimal digit of a value below 16. *)
Definition hexdigit (d : Z) : Z := if d <? 10 then 48 + d else 55 + d.

(** Value of a hexadecimal digit, either case. *)
Definition hexval (c : Z) : option Z :=
  if in_range 48 57 c then Some (c - 48)
  else if in_range 65 70 c then Some (c - 55)
  else if in_range 97 102 c then Some (c - 87)
  else None.

Definition ParseHexOctet (h1 h2 : Z) : option Z :=
  match hexval h1, hexval h2 with
  | Some x, Some y => Some (16 * x + y)
  | _, _ => None
  end.

(** [%XY] for one octet. *)
Definition escape (b : Z) : jsstring :=
  [percent; hexdigit (b / 16); hexdigit (b mod 16)].

Definition escape_octets (octets : list Z) : jsstring :=
  flat_map escape octets.

(** Encode (string, extraUnescaped) with an empty extra set: a code unit of
    the unreserved set is copied; otherwise the code point at that position
    is read, an unpaired surrogate raises URIError, and the octets of its
    UTF-8 encoding are escaped. *)
Fixpoint Encode (s : jsstring) : completion jsstring :=
  match s with
  | [] => Normal []
  | c :: t =>
      if unreserved c then r <- Encode t ;; Normal (c :: r)
      else if is_high_surrogate c then
        match t with
        | d :: t' =>
            if is_low_surrogate d then
              r <- Encode t' ;;
              Normal (escape_octets (utf8_encode (pair_to_code_point c d)) ++ r)
            else Throw URIError
        | [] => Throw URIError
        end
      else if is_low_surrogate c then Throw URIError
      else r <- Encode t ;; Normal (escape_octets (utf8_encode c) ++ r)
  end.

Definition encodeURIComponent (s : jsstring) : completion jsstring := Encode s.

(** Number of leading 1 bits of an octet. *)
Definition leading_ones (b : Z) : Z :=
  if b <? 128 then 0
  else if b <? 192 then 1
  else if b <? 224 then 2
  else if b <? 240 then 3
  else if b <? 248 then 4
  else 5.

(** One continuation escape [%XY] of a multi-octet sequence. *)
Definition continuation (p h1 h2 : Z) : option Z :=
  if p =? percent then ParseHexOctet h1 h2 else None.

(** The code units a multi-octet escape sequence stands for, followed by
    the decoding of the rest. *)
Definition emit_octets (octets : option (list Z)) (rest : completion jsstring)
  : completion jsstring :=
  match octets with
  | None => Throw URIError
  | Some os =>
      match utf8_decode os with
      | None => Throw URIError
      | Some v => r <- rest ;; Normal (UTF16EncodeCodePoint v ++ r)
      end
  end.

Definition octets2 (b0 : Z) (c1 : option Z) : option (list Z) :=
  match c1 with Some b1 => Some [b0; b1] | None => None end.

Definition octets3 (b0 : Z) (c1 c2 : option Z) : option (list Z) :=
  match c1, c2 with Some b1, Some b2 => Some [b0; b1; b2] | _, _ => None end.

Definition octets4 (b0 : Z) (c1 c2 c3 : option Z) : option (list Z) :=
  match c1, c2, c3 with
  | Some b1, Some b2, Some b3 => Some [b0; b1; b2; b3]
  | _, _, _ => None
  end.

(** Decode (string, preserveEscapeSet) with an empty preserve set.  The
    index [k] of the specification is the position of the remaining
    suffix; [k + 3 > len] is a suffix too short for [%XY]. *)
Fixpoint Decode (s : jsstring) : completion jsstring :=
  match s with
  | [] => Normal []
  | c :: t =>
      if c =? percent then
        match t with
        | h1 :: h2 :: t1 =>
            match ParseHexOctet h1 h2 with
            | None => Throw URIError
            | Some b =>
                match leading_ones b with
                | 0 => r <- Decode t1 ;; Normal (b :: r)
                | 2 =>
                    match t1 with
                    | p1 :: x1 :: y1 :: t2 =>
                        emit_octets (octets2 b (continuation p1 x1 y1))
                                    (Decode t2)
                    | _ => Throw URIError
                    end
                | 3 =>
                    match t1 with
                    | p1 :: x1 :: y1 :: p2 :: x2 :: y2 :: t3 =>
                        emit_octets (octets3 b (continuation p1 x1 y1)
                                               (continuation p2 x2 y2))
                                    (Decode t3)
                    | _ => Throw URIError
                    end
                | 4 =>
                    match t1 with
                    | p1 :: x1 :: y1 :: p2 :: x2 :: y2 :: p3 :: x3 :: y3 :: t4 =>
                        emit_octets (octets4 b (continuation p1 x1 y1)
                                               (continuation p2 x2 y2)
                                               (continuation p3 x3 y3))
                                    (Decode t4)
                    | _ => Throw URIError
                    end
                | _ => Throw URIError
                end
            end
        | _ => Throw URIError
        end
      else r <- Decode t ;; Normal (c :: r)
  end.

Definition decodeURIComponent (s : jsstring) : completion jsstring := Decode s.

(** IsStringWellFormedUnicode: every code unit is in range and every
    surrogate is half of a pair. *)
Fixpoint WellFormedUnicode (s : jsstring) : bool :=
  match s with
  | [] => true
  | c :: t =>
      is_code_unit c &&
      (if is_high_surrogate c then
         match t with
         | d :: t' => is_low_surrogate d && is_code_unit d && WellFormedUnicode t'
         | [] => false
         end
       else negb (is_low_surrogate c) && WellFormedUnicode t)
  end.

End URI.

(** ** String methods *)

(** ToBoolean on a string: the empty string is the only falsy one. *)
Definition truthy (s : jsstring) : bool :=
  match s with [] => false | _ :: _ => true end.

Fixpoint starts_with (search s : jsstring) : bool :=
  match search, s with
  | [], _ => true
  | x :: search', y :: s' => (x =? y) && starts_with search' s'
  | _ :: _, [] => false
  end.

(** [s.includes(search)]: [search] occurs in [s] at some position. *)
Fixpoint includes (s search : jsstring) : bool :=
  starts_with search s
  || match s with
     | [] => false
     | _ :: t => includes t search
     end.

(** [s.replace(search, replacement)] with a string pattern: the first
    occurrence only. *)
Fixpoint replace (s search replacement : jsstring) : jsstring :=
  if starts_with search s then replacement ++ skipn (length search) s
  else match s with
       | [] => []
       | c :: t => c :: replace t search replacement
       end.

(** [Array.prototype.includes] on an array of strings. *)
Definition array_includes (xs : list jsstring) (x : jsstring) : bool :=
  existsb (jsstring_eqb x) xs.

(** [String.prototype.toLowerCase] follows the Unicode case mapping tables,
    which are not part of the repository: the mapping is an interface, with
    the one law the list view relies on. *)
Class CaseMapping := {
  toLowerCase : jsstring -> jsstring;
  toLowerCase_empty : toLowerCase [] = []
}.

(** The mapping restricted to ASCII letters, for concrete runs. *)
Definition ascii_lower (c : Z) : Z :=
  if URI.in_range 65 90 c then c + 32 else c.

#[export] Instance ascii_CaseMapping : CaseMapping :=
  {| toLowerCase := map ascii_lower; toLowerCase_empty := eq_refl |}.

(** ** Ordinary objects used as maps *)

(** The own enumerable string-keyed properties of an object, in the order
    [Object.entries] lists them. *)
Definition jsobject (A : Type) := list (jsstring * A).

Definition Object_entries {A} (o : jsobject A) : list (jsstring * A) := o.

Definition keys {A} (o : jsobject A) : list jsstring := map fst o.

Fixpoint get_own {A} (o : jsobject A) (k : jsstring) : option A :=
  match o with
  | [] => None
  | (k', a) :: o' => if jsstring_eqb k k' then Some a else get_own o' k
  end.

(** The properties every ordinary object inherits from [Object.prototype]. *)
Definition Object_prototype_names : list jsstring :=
  map js ["constructor"; "hasOwnProperty"; "isPrototypeOf";
          "propertyIsEnumerable"; "toLocaleString"; "toString"; "valueOf";
          "__proto__"; "__defineGetter__"; "__defineSetter__";
          "__lookupGetter__"; "__lookupSetter__"]%string.

(** What [o[k]] evaluates to: an own property, a property found on the
    prototype, or [undefined]. *)
Inductive property (A : Type) :=
| Own (a : A)
| Inherited (name : jsstring)
| Undefined.
Arguments Own {A} a.
Arguments Inherited {A} name.
Arguments Undefined {A}.

Definition Get {A} (o : jsobject A) (k : jsstring) : property A :=
  match get_own o k with
  | Some a => Own a
  | None =>
      if array_includes Object_prototype_names k then Inherited k else Undefined
  end.

(** ** Data model ([types/councillor.ts]) *)

Record SearchResult := {
  title : jsstring;
  link : jsstring;
  snippet : jsstring;
  search_time : jsstring;
  relevance_score : PrimFloat.float
}.

(** The four buckets are the properties of an object; the components walk
    them with [Object.entries], in the order of the data file. *)
Definition CategoryResults := jsobject (list SearchResult).

Record Summary := {
  total_results : Z;
  potential_interests : list jsstring;
  controversy_count : Z;
  has_social_media : bool
}.

Record CouncillorData := {
  categories : CategoryResults;
  summary : Summary
}.

Definition CouncillorResults := jsobject CouncillorData.

(** [categories.controversy]. *)
Definition controversy (c : CategoryResults) : option (list SearchResult) :=
  get_own c (js "controversy").

(** ** Rendered trees *)

Inductive attr :=
| AStr (v : jsstring)
| ANum (n : Z)
| ABool (b : bool)
| ANavigate (target : completion jsstring)
| ASetSearchTerm.

(** What a component returns.  [VNull] stands for the values React renders
    as nothing ([null], [undefined], [false]); [VFixed x d] is the text
    [x.toFixed(d)]. *)
#[warnings="-register-all"]
Inductive vnode :=
| VNull
| VText (s : jsstring)
| VNum (n : Z)
| VFixed (x : PrimFloat.float) (digits : Z)
| VElem (tag : string) (attrs : list (string * attr)) (children : list vnode).

Definition className (c : string) : string * attr := ("className"%string, AStr (js c)).

Definition icon (tag : string) : vnode := VElem tag [className "h-4 w-4"] [].

(** [n > 0 && element]. *)
Definition when (b : bool) (v : vnode) : vnode := if b then v else VNull.

(** [s && element] for a string [s]: a falsy [s] is itself the value. *)
Definition when_string (s : jsstring) (v : vnode) : vnode :=
  if truthy s then v else VText s.

Definition array_length {A} (xs : list A) : Z := Z.of_nat (length xs).

(** ** [components/CouncillorCard.tsx] *)

Module Card.

Definition getCategoryIcon (category : jsstring) : vnode :=
  if jsstring_eqb category (js "basic_info") then icon "Info"
  else if jsstring_eqb category (js "business_interests") then icon "Briefcase"
  else if jsstring_eqb category (js "social_media") then icon "Share2"
  else if jsstring_eqb category (js "controversy") then icon "AlertTriangle"
  else VNull.

(** One entry of [Object.entries(data.categories).map(...)]. *)
Definition badge (entry : jsstring * list SearchResult) : vnode :=
  let '(category, results) := entry in
  when (array_length results >? 0)
    (VElem "Badge"
       [("key"%string, AStr category);
        ("variant"%string, AStr (js "secondary"));
        className "flex items-center gap-1"]
       [getCategoryIcon category;
        VText (replace category (js "_") (js " "));
        VText (js " (");
        VNum (array_length results);
        VText (js ")")]).

(** The handler of [onClick]: the route it asks the router for. *)
Definition onClick (name : jsstring) : completion jsstring :=
  encoded <- URI.encodeURIComponent name ;;
  Normal (js "/councillor/" ++ encoded).

(** The red line of the card. *)
Definition controversy_line (count : Z) : vnode :=
  VElem "p" [className "text-red-500 flex items-center gap-1"]
    [icon "AlertTriangle"; VText (js "Controversy Items: "); VNum count].

(** The block under the badges. *)
Definition summary_block (summary : Summary) : vnode :=
  VElem "div" [className "text-sm text-gray-600"]
    [VElem "p" []
       [VText (js "Total Results: "); VNum summary.(total_results)];
     when (summary.(controversy_count) >? 0)
       (controversy_line summary.(controversy_count))].

Definition CouncillorCard (name : jsstring) (data : CouncillorData) : vnode :=
  let summary := data.(summary) in
  VElem "Card"
    [className "hover:shadow-lg transition-shadow cursor-pointer";
     ("onClick"%string, ANavigate (onClick name))]
    [VElem "CardHeader" []
       [VElem "CardTitle" [className "text-xl font-semibold"] [VText name]];
     VElem "CardContent" []
       [VElem "div" [className "space-y-4"]
          [VElem "div" [className "flex gap-2 flex-wrap"]
             (map badge (Object_entries data.(categories)));
           summary_block summary]]].

End Card.

(** ** [components/CouncillorDetail.tsx] *)

Module Detail.

Definition ResultCard (result : SearchResult) : vnode :=
  VElem "Card" [className "mb-4"]
    [VElem "CardContent" [className "pt-4"]
       [VElem "a"
          [("href"%string, AStr result.(link));
           ("target"%string, AStr (js "_blank"));
           ("rel"%string, AStr (js "noopener noreferrer"));
           className "text-primary hover:underline flex items-center gap-2"]
          [VText result.(title); icon "ExternalLink"];
        VElem "p" [className "text-sm text-gray-600 mt-2"]
          [VText result.(snippet)];
        VElem "div"
          [className "flex justify-between items-center mt-2 text-sm text-gray-500"]
          [VElem "span" []
             [VText (js "Relevance: "); VFixed result.(relevance_score) 1];
           when_string result.(search_time)
             (VElem "span" [] [VText result.(search_time)])]]].

Definition getCategoryIcon (category : jsstring) : vnode :=
  if jsstring_eqb category (js "business_interests") then icon "Briefcase"
  else if jsstring_eqb category (js "controversy") then icon "AlertTriangle"
  else VNull.

Definition filteredCategories (c : CategoryResults)
  : list (jsstring * list SearchResult) :=
  filter (fun entry =>
            negb (array_includes [js "basic_info"; js "social_media"] (fst entry)))
         (Object_entries c).

(** [results.map((result, index) => <ResultCard key={index} .../>)]: the
    key is a prop of the element the component is mounted under. *)
Fixpoint result_cards (index : Z) (results : list SearchResult) : list vnode :=
  match results with
  | [] => []
  | r :: rs =>
      VElem "ResultCard" [("key"%string, ANum index)] [ResultCard r]
      :: result_cards (index + 1) rs
  end.

Definition section (entry : jsstring * list SearchResult) : vnode :=
  let '(category, results) := entry in
  VElem "AccordionItem"
    [("value"%string, AStr category); ("key"%string, AStr category)]
    [VElem "AccordionTrigger" [className "flex items-center gap-2"]
       [getCategoryIcon category;
        VText (replace category (js "_") (js " "));
        VText (js " (");
        VNum (array_length results);
        VText (js ")")];
     VElem "AccordionContent" []
       (result_cards 0 results
        ++ [when (array_length results =? 0)
              (VElem "p" [className "text-gray-500 italic"]
                 [VText (js "No results found")])])].

Definition figure (heading : string) (cls : string) (n : Z) : vnode :=
  VElem "div" [className "bg-gray-50 p-4 rounded-lg"]
    [VElem "h3" [className "font-semibold"] [VText (js heading)];
     VElem "p" [className cls] [VNum n]].

(** The three figures of the header. *)
Definition figures (s : Summary) : list vnode :=
  [figure "Total Results" "text-2xl" s.(total_results);
   figure "Controversy Count" "text-2xl text-red-500" s.(controversy_count);
   figure "Potential Interests" "text-2xl"
     (array_length s.(potential_interests))].

Definition header (decodedName : jsstring) (s : Summary) : vnode :=
  VElem "Card" [className "mb-8"]
    [VElem "CardHeader" []
       [VElem "CardTitle" [className "text-2xl"] [VText decodedName]];
     VElem "CardContent" []
       [VElem "div"
          [className "grid grid-cols-1 md:grid-cols-2 lg:grid-cols-4 gap-4"]
          (figures s)]].

Definition not_found : vnode :=
  VElem "div" [] [VText (js "Councillor not found")].

(** The element returned once a record was found. *)
Definition page (decodedName : jsstring) (councillor : CouncillorData) : vnode :=
  VElem "div" [className "container mx-auto py-8 px-4"]
    [VElem "Button"
       [("variant"%string, AStr (js "outline"));
        ("onClick"%string, ANavigate (Normal (js "/")));
        className "mb-6"]
       [VElem "ArrowLeft" [className "h-4 w-4 mr-2"] [];
        VText (js "Back to List")];
     header decodedName councillor.(summary);
     VElem "Accordion"
       [("type"%string, AStr (js "single"));
        ("collapsible"%string, ABool true);
        className "space-y-4"]
       (map section (filteredCategories councillor.(categories)))].

(** [name] is the route parameter of [useParams()], [None] when the route
    has none; [councillorData] is the imported data file.

    [councillorData[decodedName]] is an ordinary property read, so a name
    of [Object.prototype] yields the inherited (truthy) value; its
    [categories] is [undefined] and [Object.entries(undefined)] raises
    TypeError. *)
Definition CouncillorDetail (councillorData : CouncillorResults)
           (name : option jsstring) : completion vnode :=
  match name with
  | None => Normal VNull
  | Some name =>
      if negb (truthy name) then Normal VNull
      else
        decodedName <- URI.decodeURIComponent name ;;
        match Get councillorData decodedName with
        | Undefined => Normal not_found
        | Inherited _ => Throw TypeError
        | Own councillor => Normal (page decodedName councillor)
        end
  end.

End Detail.

(** ** [pages/Index.tsx] *)

Module ListView.
Section WithCaseMapping.
Context {CM : CaseMapping}.

Definition matches (searchTerm name : jsstring) : bool :=
  includes (toLowerCase name) (toLowerCase searchTerm).

Definition filteredCouncillors (councillorData : CouncillorResults)
           (searchTerm : jsstring) : list (jsstring * CouncillorData) :=
  filter (fun entry => matches searchTerm (fst entry))
         (Object_entries councillorData).

Definition card (entry : jsstring * CouncillorData) : vnode :=
  VElem "CouncillorCard" [("key"%string, AStr (fst entry))]
    [Card.CouncillorCard (fst entry) (snd entry)].

Definition empty_state : vnode :=
  VElem "p" [className "text-center text-gray-500 mt-8"]
    [VText (js "No councillors found matching your search.")].

(** The page as a function of the store and of its one piece of state,
    the search text. *)
Definition Index (councillorData : CouncillorResults) (searchTerm : jsstring)
  : vnode :=
  let filteredCouncillors := filteredCouncillors councillorData searchTerm in
  VElem "div" [className "container mx-auto py-8 px-4"]
    [VElem "h1" [className "text-3xl font-bold mb-8 text-primary"]
       [VText (js "Councillor Web Results")];
     VElem "Input"
       [("type"%string, AStr (js "search"));
        ("placeholder"%string, AStr (js "Search councillors..."));
        className "mb-8";
        ("value"%string, AStr searchTerm);
        ("onChange"%string, ASetSearchTerm)]
       [];
     VElem "div" [className "grid grid-cols-1 md:grid-cols-2 lg:grid-cols-3 gap-6"]
       (map card filteredCouncillors);
     when (array_length filteredCouncillors =? 0) empty_state].

End WithCaseMapping.
End ListView.

(** ** The router between the two views *)

(** The components are mounted by react-router, a dependency of the
    repository: the route [/councillor/:name] matches one path segment and
    [useParams()] hands it to the view percent-decoded, or as it is when it
    does not decode. *)
Module Router.

Definition param (segment : jsstring) : jsstring :=
  match URI.decodeURIComponent segment with
  | Normal decoded => decoded
  | Throw _ => segment
  end.

End Router.

(** ** Queries on rendered trees *)

(** A tree's nodes in document order, the root first. *)
Fixpoint descendants (v : vnode) : list vnode :=
  v :: match v with
       | VElem _ _ children => flat_map descendants children
       | _ => []
       end.

(** The nodes of a tree that satisfy [p], in document order. *)
Definition select (p : vnode -> bool) (v : vnode) : list vnode :=
  filter p (descendants v).

Definition has_tag (t : string) (v : vnode) : bool :=
  match v with
  | VElem t' _ _ => String.eqb t t'
  | _ => false
  end.

Fixpoint lookup_attr (a : string) (attrs : list (string * attr)) : option attr :=
  match attrs with
  | [] => None
  | (a', x) :: attrs' => if String.eqb a a' then Some x else lookup_attr a attrs'
  end.

Definition attr_of (a : string) (v : vnode) : option attr :=
  match v with
  | VElem _ attrs _ => lookup_attr a attrs
  | _ => None
  end.

(** The space-separated tokens of a class attribute. *)
Fixpoint tokens (current : jsstring) (s : jsstring) : list jsstring :=
  match s with
  | [] => [rev current]
  | c :: t => if c =? 32 then rev current :: tokens [] t else tokens (c :: current) t
  end.

Definition has_class (c : string) (v : vnode) : bool :=
  match attr_of "className" v with
  | Some (AStr s) => array_includes (tokens [] s) (js c)
  | _ => false
  end.

(** An element whose string attribute [a] is [x]. *)
Definition has_attr (a : string) (x : jsstring) (v : vnode) : bool :=
  match attr_of a v with
  | Some (AStr y) => jsstring_eqb x y
  | _ => false
  end.

(** An accordion section for the category [category]. *)
Definition is_section (category : jsstring) (v : vnode) : bool :=
  has_tag "AccordionItem" v && has_attr "value" category v.

(** ** The store of the specification's example *)

Module Example.
Import PrimFloat.

#[warnings="-inexact-float"]
Definition result_X : SearchResult :=
  {| title := js "X"; link := js "http://x"; snippet := js "s";
     search_time := js "1s"; relevance_score := 0.8%float |}.

Definition jane : CouncillorData :=
  {| categories :=
       [(js "business_interests", []);
        (js "controversy", [result_X]);
        (js "basic_info", []);
        (js "social_media", [])];
     summary :=
       {| total_results := 1; potential_interests := [];
          controversy_count := 1; has_social_media := false |} |}.

Definition store : CouncillorResults := [(js "Jane Doe", jane)].

(** The same categories under a summary that counts no controversy. *)
Definition jane_stale : CouncillorData :=
  {| categories := jane.(categories);
     summary :=
       {| total_results := 1; potential_interests := [];
          controversy_count := 0; has_social_media := false |} |}.

(** Jane's summary over categories that hold nothing. *)
Definition jane_bare : CouncillorData :=
  {| categories := []; summary := jane.(summary) |}.

(** A name that is one unpaired surrogate, as the data file can spell it
    with a [\uD800] escape. *)
Definition lone_surrogate : jsstring := [55296].

(** The name Zoe written with a diaeresis, one code unit above ASCII. *)
Definition zoe : jsstring := [90; 111; 235].

(** A store of two councillors. *)
Definition council : CouncillorResults := [(js "Jane Doe", jane); (zoe, jane_bare)].

(** A name that ends in a percent sign. *)
Definition all_in : jsstring := js "100%".

End Example.

(** ** Notions of the specification *)

(** [name] contains [s] as a case-insensitive substring. *)
Definition contains_ci {CM : CaseMapping} (name s : jsstring) : Prop :=
  exists before after, toLowerCase name = before ++ toLowerCase s ++ after.

(** [shown] keeps exactly the elements of [all] that satisfy [P], in the
    order of [all]. *)
Inductive Filtered {A} (P : A -> Prop) : list A -> list A -> Prop :=
| Filtered_nil : Filtered P [] []
| Filtered_keep x all shown :
    P x -> Filtered P all shown -> Filtered P (x :: all) (x :: shown)
| Filtered_drop x all shown :
    ~ P x -> Filtered P all shown -> Filtered P (x :: all) shown.

(** The cards the list view shows. *)
Definition cards (v : vnode) : list vnode := select (has_tag "CouncillorCard") v.

(** The card and the detail header of the record [d], shown under [name],
    display [N] as the controversy count when [N > 0], and the card has no
    red line when [N = 0]. *)
Definition shows_controversy_length (name : jsstring) (d : CouncillorData) (N : Z)
  : Prop :=
  (N > 0 ->
   select (has_class "text-red-500") (Card.CouncillorCard name d)
   = [VElem "p" [className "text-red-500 flex items-center gap-1"]
        [VElem "AlertTriangle" [className "h-4 w-4"] [];
         VText (js "Controversy Items: ");
         VNum N]]
   /\ select (has_class "text-red-500") (Detail.page name d)
      = [VElem "p" [className "text-2xl text-red-500"] [VNum N]])
  /\ (N = 0 -> select (has_class "text-red-500") (Card.CouncillorCard name d) = []).

(** Clicking the card of [name] asks for the detail route of the encoded
    name, decoding inverts the encoding, and the detail view, given the
    parameter the router makes of that route, renders the page of the
    record stored under [name]. *)
Definition click_opens_record (store : CouncillorResults) (name : jsstring)
           (data : CouncillorData) : Prop :=
  exists encoded,
    attr_of "onClick" (Card.CouncillorCard name data)
    = Some (ANavigate (Normal (js "/councillor/" ++ encoded)))
    /\ URI.decodeURIComponent encoded = Normal name
    /\ Detail.CouncillorDetail store (Some (Router.param encoded))
       = Normal (Detail.page name data).

(** ** Notions used to describe the rest of the components *)

(** A code unit that may stand in a URL path segment as it is: the
    unreserved set and the percent sign of an escape. *)
Definition url_safe (c : Z) : bool := URI.unreserved c || (c =? URI.percent).

(** Every code unit of the string is a 16-bit value. *)
Definition code_units (s : jsstring) : Prop :=
  Forall (fun c => is_code_unit c = true) s.

(** The badge a card shows for a category and its number of results. *)
Definition badge_element (category : jsstring) (count : Z) : vnode :=
  VElem "Badge"
    [("key"%string, AStr category);
     ("variant"%string, AStr (js "secondary"));
     className "flex items-center gap-1"]
    [Card.getCategoryIcon category;
     VText (replace category (js "_") (js " "));
     VText (js " (");
     VNum count;
     VText (js ")")].

(** The heading of an accordion section for a category and a count. *)
Definition section_heading (category : jsstring) (count : Z) : vnode :=
  VElem "AccordionTrigger" [className "flex items-center gap-2"]
    [Detail.getCategoryIcon category;
     VText (replace category (js "_") (js " "));
     VText (js " (");
     VNum count;
     VText (js ")")].

(** The message of a section without results. *)
Definition no_results : vnode :=
  VElem "p" [className "text-gray-500 italic"] [VText (js "No results found")].

(** The two categories the detail view leaves out of the accordion. *)
Definition identity_category (category : jsstring) : bool :=
  array_includes [js "basic_info"; js "social_media"] category.

(** * Properties *)

(** ** Runs of the built-ins *)

Example encode_space : URI.encodeURIComponent (js "Jane Doe") = Normal (js "Jane%20Doe").
Proof. reflexivity. Qed.

Example decode_space : URI.decodeURIComponent (js "Jane%20Doe") = Normal (js "Jane Doe").
Proof. reflexivity. Qed.

Example encode_e_acute : URI.encodeURIComponent [233] = Normal (js "%C3%A9").
Proof. reflexivity. Qed.

Example decode_e_acute : URI.decodeURIComponent (js "%c3%A9") = Normal [233].
Proof. reflexivity. Qed.

Example encode_astral :
  URI.encodeURIComponent [55357; 56832] = Normal (js "%F0%9F%98%80").
Proof. reflexivity. Qed.

Example decode_astral :
  URI.decodeURIComponent (js "%F0%9F%98%80") = Normal [55357; 56832].
Proof. reflexivity. Qed.

Example decode_overlong : URI.decodeURIComponent (js "%C0%80") = Throw URIError.
Proof. reflexivity. Qed.

Example decode_surrogate : URI.decodeURIComponent (js "%ED%A0%80") = Throw URIError.
Proof. reflexivity. Qed.

(** ** The specification's example, run *)

Example list_shows_jane :
  cards (ListView.Index Example.store []) = [ListView.card (js "Jane Doe", Example.jane)].
Proof. reflexivity. Qed.

Example search_ignores_case :
  cards (ListView.Index Example.store (js "jANE"))
  = [ListView.card (js "Jane Doe", Example.jane)].
Proof. reflexivity. Qed.

Example search_without_match :
  ListView.Index Example.store (js "bob")
  = VElem "div" [className "container mx-auto py-8 px-4"]
      [VElem "h1" [className "text-3xl font-bold mb-8 text-primary"]
         [VText (js "Councillor Web Results")];
       VElem "Input"
         [("type"%string, AStr (js "search"));
          ("placeholder"%string, AStr (js "Search councillors..."));
          className "mb-8";
          ("value"%string, AStr (js "bob"));
          ("onChange"%string, ASetSearchTerm)]
         [];
       VElem "div" [className "grid grid-cols-1 md:grid-cols-2 lg:grid-cols-3 gap-6"] [];
       ListView.empty_state].
Proof. reflexivity. Qed.

Example jane_badges :
  select (has_tag "Badge") (Card.CouncillorCard (js "Jane Doe") Example.jane)
  = [VElem "Badge"
       [("key"%string, AStr (js "controversy"));
        ("variant"%string, AStr (js "secondary"));
        className "flex items-center gap-1"]
       [icon "AlertTriangle"; VText (js "controversy"); VText (js " (");
        VNum 1; VText (js ")")]].
Proof. reflexivity. Qed.

Example jane_sections :
  map (attr_of "value")
      (select (has_tag "AccordionItem") (Detail.page (js "Jane Doe") Example.jane))
  = [Some (AStr (js "business_interests")); Some (AStr (js "controversy"))].
Proof. reflexivity. Qed.

Example replace_first_underscore :
  replace (js "a_b_c") (js "_") (js " ") = js "a b_c".
Proof. reflexivity. Qed.

Example detail_of_unknown :
  Detail.CouncillorDetail Example.store (Some (js "John%20Roe")) = Normal Detail.not_found.
Proof. reflexivity. Qed.

(** ** Percent-encoding round trip *)

Module URIFacts.
Import URI.

Ltac bool_true :=
  unfold is_continuation, is_surrogate, is_high_surrogate, is_low_surrogate,
    is_code_unit, in_range in *;
  repeat match goal with
         | |- _ && _ = true => apply andb_true_intro; split
         | |- negb _ = true => apply negb_true_iff
         | |- (_ <=? _) = true => apply Z.leb_le
         | |- (_ <? _) = true => apply Z.ltb_lt
         | |- (_ <=? _) = false => apply Z.leb_gt
         | |- (_ <? _) = false => apply Z.ltb_ge
         | |- _ && _ = false => apply andb_false_iff
         end.

Lemma in_range_spec lo hi c : in_range lo hi c = true <-> lo <= c <= hi.
Proof. unfold in_range. rewrite andb_true_iff, !Z.leb_le. tauto. Qed.

Lemma in_range_false lo hi c : in_range lo hi c = false <-> c < lo \/ hi < c.
Proof. unfold in_range. rewrite andb_false_iff, !Z.leb_gt. tauto. Qed.

Lemma hexval_hexdigit d : 0 <= d < 16 -> hexval (hexdigit d) = Some d.
Proof.
  intros Hd. unfold hexdigit, hexval.
  destruct (d <? 10) eqn:E.
  - apply Z.ltb_lt in E.
    replace (in_range 48 57 (48 + d)) with true
      by (symmetry; apply in_range_spec; lia).
    f_equal. lia.
  - apply Z.ltb_ge in E.
    replace (in_range 48 57 (55 + d)) with false
      by (symmetry; apply in_range_false; lia).
    replace (in_range 65 70 (55 + d)) with true
      by (symmetry; apply in_range_spec; lia).
    f_equal. lia.
Qed.

Lemma ParseHexOctet_escape b :
  0 <= b < 256 ->
  ParseHexOctet (hexdigit (b / 16)) (hexdigit (b mod 16)) = Some b.
Proof.
  intros Hb. unfold ParseHexOctet.
  rewrite !hexval_hexdigit by (Z.to_euclidean_division_equations; lia).
  f_equal. Z.to_euclidean_division_equations. lia.
Qed.

Lemma continuation_escape b :
  0 <= b < 256 ->
  continuation percent (hexdigit (b / 16)) (hexdigit (b mod 16)) = Some b.
Proof.
  intros Hb. unfold continuation. rewrite Z.eqb_refl.
  now apply ParseHexOctet_escape.
Qed.

(** One step of [Decode] at an escape. *)
Lemma Decode_escape b rest :
  0 <= b < 256 ->
  Decode (escape b ++ rest) =
  match leading_ones b with
  | 0 => r <- Decode rest ;; Normal (b :: r)
  | 2 =>
      match rest with
      | p1 :: x1 :: y1 :: t2 =>
          emit_octets (octets2 b (continuation p1 x1 y1)) (Decode t2)
      | _ => Throw URIError
      end
  | 3 =>
      match rest with
      | p1 :: x1 :: y1 :: p2 :: x2 :: y2 :: t3 =>
          emit_octets (octets3 b (continuation p1 x1 y1) (continuation p2 x2 y2))
                      (Decode t3)
      | _ => Throw URIError
      end
  | 4 =>
      match rest with
      | p1 :: x1 :: y1 :: p2 :: x2 :: y2 :: p3 :: x3 :: y3 :: t4 =>
          emit_octets (octets4 b (continuation p1 x1 y1) (continuation p2 x2 y2)
                                 (continuation p3 x3 y3))
                      (Decode t4)
      | _ => Throw URIError
      end
  | _ => Throw URIError
  end.
Proof.
  intros Hb. unfold escape. cbn [app Decode].
  rewrite Z.eqb_refl, (ParseHexOctet_escape b Hb). reflexivity.
Qed.

Lemma Decode_plain c rest :
  c <> percent -> Decode (c :: rest) = r <- Decode rest ;; Normal (c :: r).
Proof.
  intros Hc. cbn [Decode]. apply Z.eqb_neq in Hc. now rewrite Hc.
Qed.

Lemma unreserved_not_percent c : unreserved c = true -> c <> percent.
Proof. intros H ->. discriminate H. Qed.

Lemma leading_ones_0 b : b < 128 -> leading_ones b = 0.
Proof. intros. unfold leading_ones. now replace (b <? 128) with true by (symmetry; bool_true; lia). Qed.

Lemma leading_ones_2 b : 192 <= b < 224 -> leading_ones b = 2.
Proof.
  intros. unfold leading_ones.
  replace (b <? 128) with false by (symmetry; bool_true; lia).
  replace (b <? 192) with false by (symmetry; bool_true; lia).
  now replace (b <? 224) with true by (symmetry; bool_true; lia).
Qed.

Lemma leading_ones_3 b : 224 <= b < 240 -> leading_ones b = 3.
Proof.
  intros. unfold leading_ones.
  replace (b <? 128) with false by (symmetry; bool_true; lia).
  replace (b <? 192) with false by (symmetry; bool_true; lia).
  replace (b <? 224) with false by (symmetry; bool_true; lia).
  now replace (b <? 240) with true by (symmetry; bool_true; lia).
Qed.

Lemma leading_ones_4 b : 240 <= b < 248 -> leading_ones b = 4.
Proof.
  intros. unfold leading_ones.
  replace (b <? 128) with false by (symmetry; bool_true; lia).
  replace (b <? 192) with false by (symmetry; bool_true; lia).
  replace (b <? 224) with false by (symmetry; bool_true; lia).
  replace (b <? 240) with false by (symmetry; bool_true; lia).
  now replace (b <? 248) with true by (symmetry; bool_true; lia).
Qed.

Ltac euclid := Z.to_euclidean_division_equations; lia.

Lemma utf8_decode2 cp :
  128 <= cp <= 2047 -> utf8_decode [192 + cp / 64; 128 + cp mod 64] = Some cp.
Proof.
  intros H. unfold utf8_decode.
  replace ((192 + cp / 64 - 192) * 64 + (128 + cp mod 64 - 128)) with cp by euclid.
  replace (is_continuation (128 + cp mod 64)) with true
    by (symmetry; bool_true; euclid).
  now replace (128 <=? cp) with true by (symmetry; bool_true; lia).
Qed.

Lemma utf8_decode3 cp :
  2048 <= cp <= 65535 -> is_surrogate cp = false ->
  utf8_decode [224 + cp / 4096; 128 + (cp / 64) mod 64; 128 + cp mod 64] = Some cp.
Proof.
  intros H Hs. unfold utf8_decode.
  replace ((224 + cp / 4096 - 224) * 4096 + (128 + (cp / 64) mod 64 - 128) * 64
           + (128 + cp mod 64 - 128)) with cp by euclid.
  replace (is_continuation (128 + (cp / 64) mod 64)) with true
    by (symmetry; bool_true; euclid).
  replace (is_continuation (128 + cp mod 64)) with true
    by (symmetry; bool_true; euclid).
  replace (2048 <=? cp) with true by (symmetry; bool_true; lia).
  now rewrite Hs.
Qed.

Lemma utf8_decode4 cp :
  65536 <= cp <= 1114111 ->
  utf8_decode [240 + cp / 262144; 128 + (cp / 4096) mod 64;
               128 + (cp / 64) mod 64; 128 + cp mod 64] = Some cp.
Proof.
  intros H. unfold utf8_decode.
  replace ((240 + cp / 262144 - 240) * 262144
           + (128 + (cp / 4096) mod 64 - 128) * 4096
           + (128 + (cp / 64) mod 64 - 128) * 64
           + (128 + cp mod 64 - 128)) with cp by euclid.
  replace (is_continuation (128 + (cp / 4096) mod 64)) with true
    by (symmetry; bool_true; euclid).
  replace (is_continuation (128 + (cp / 64) mod 64)) with true
    by (symmetry; bool_true; euclid).
  replace (is_continuation (128 + cp mod 64)) with true
    by (symmetry; bool_true; euclid).
  replace (65536 <=? cp) with true by (symmetry; bool_true; lia).
  now replace (cp <=? 1114111) with true by (symmetry; bool_true; lia).
Qed.

(** Decoding the escaped UTF-8 octets of a scalar value gives back its
    UTF-16 code units. *)
Lemma Decode_escape_octets cp rest :
  0 <= cp <= 1114111 -> is_surrogate cp = false ->
  Decode (escape_octets (utf8_encode cp) ++ rest) =
  r <- Decode rest ;; Normal (UTF16EncodeCodePoint cp ++ r).
Proof.
  intros Hcp Hs. unfold utf8_encode, escape_octets.
  destruct (cp <=? 127) eqn:E1; [apply Z.leb_le in E1 | apply Z.leb_gt in E1].
  { cbn [flat_map]. rewrite app_nil_r, Decode_escape by lia.
    rewrite leading_ones_0 by lia. unfold UTF16EncodeCodePoint.
    now replace (cp <=? 65535) with true by (symmetry; bool_true; lia). }
  destruct (cp <=? 2047) eqn:E2; [apply Z.leb_le in E2 | apply Z.leb_gt in E2].
  { cbn [flat_map]. rewrite app_nil_r, <- app_assoc, Decode_escape by euclid.
    rewrite leading_ones_2 by euclid. unfold escape at 1. cbn [app].
    rewrite continuation_escape by euclid. cbn [octets2 emit_octets].
    rewrite utf8_decode2 by lia. reflexivity. }
  destruct (cp <=? 65535) eqn:E3; [apply Z.leb_le in E3 | apply Z.leb_gt in E3].
  { cbn [flat_map]. rewrite app_nil_r, <- !app_assoc, Decode_escape by euclid.
    rewrite leading_ones_3 by euclid. unfold escape. cbn [app].
    rewrite !continuation_escape by euclid. cbn [octets3 emit_octets].
    rewrite utf8_decode3 by (assumption || lia). reflexivity. }
  cbn [flat_map]. rewrite app_nil_r, <- !app_assoc, Decode_escape by euclid.
  rewrite leading_ones_4 by euclid. unfold escape. cbn [app].
  rewrite !continuation_escape by euclid. cbn [octets4 emit_octets].
  rewrite utf8_decode4 by lia. reflexivity.
Qed.

Lemma UTF16Encode_pair hi lo :
  is_high_surrogate hi = true -> is_low_surrogate lo = true ->
  UTF16EncodeCodePoint (pair_to_code_point hi lo) = [hi; lo].
Proof.
  intros Hh Hl. apply in_range_spec in Hh, Hl.
  unfold UTF16EncodeCodePoint, pair_to_code_point.
  replace (_ <=? 65535) with false by (symmetry; bool_true; lia).
  f_equal; [|f_equal]; euclid.
Qed.

Lemma pair_is_scalar hi lo :
  is_high_surrogate hi = true -> is_low_surrogate lo = true ->
  0 <= pair_to_code_point hi lo <= 1114111 /\
  is_surrogate (pair_to_code_point hi lo) = false.
Proof.
  intros Hh Hl. apply in_range_spec in Hh, Hl. unfold pair_to_code_point.
  split; [lia | apply in_range_false; lia].
Qed.

(** [Encode] succeeds on a well-formed string, and [Decode] inverts it. *)
Lemma Decode_Encode_length n :
  forall s, (List.length s <= n)%nat -> WellFormedUnicode s = true ->
  exists e, Encode s = Normal e /\ Decode e = Normal s.
Proof.
  induction n as [|n IH]; intros s Hlen Hwf.
  { destruct s; [|cbn in Hlen; lia]. exists []. now split. }
  destruct s as [|c t]; [exists []; now split|].
  cbn [WellFormedUnicode] in Hwf. apply andb_true_iff in Hwf as [Hc Hwf].
  cbn [Encode List.length] in *.
  destruct (unreserved c) eqn:Hu.
  { assert (Ht : WellFormedUnicode t = true).
    { destruct (is_high_surrogate c) eqn:Hh.
      - apply in_range_spec in Hh.
        enough (unreserved c = false) by congruence.
        unfold unreserved. cbn [existsb].
        rewrite !orb_false_iff.
        repeat split;
          try (apply in_range_false; lia); try (apply Z.eqb_neq; lia).
      - now apply andb_true_iff in Hwf as [_ Hwf]. }
    destruct (IH t ltac:(lia) Ht) as (e & He & Hd).
    exists (c :: e). rewrite He. split; [reflexivity|].
    rewrite Decode_plain by now apply unreserved_not_percent.
    now rewrite Hd. }
  destruct (is_high_surrogate c) eqn:Hh.
  - destruct t as [|d t']; [discriminate|].
    apply andb_true_iff in Hwf as [Hwf Ht]. apply andb_true_iff in Hwf as [Hl Hd].
    rewrite Hl. cbn [List.length] in Hlen.
    destruct (IH t' ltac:(lia) Ht) as (e & He & Hde).
    rewrite He. eexists. split; [reflexivity|].
    destruct (pair_is_scalar c d Hh Hl) as [Hr Hs].
    rewrite Decode_escape_octets, Hde by assumption.
    cbn [bind]. now rewrite UTF16Encode_pair.
  - apply andb_true_iff in Hwf as [Hl Ht]. apply negb_true_iff in Hl.
    rewrite Hl.
    destruct (IH t ltac:(lia) Ht) as (e & He & Hde).
    rewrite He. eexists. split; [reflexivity|].
    assert (Hr : 0 <= c <= 65535).
    { unfold is_code_unit in Hc. apply andb_true_iff in Hc as [H0 H1].
      apply Z.leb_le in H0, H1. lia. }
    assert (Hs : is_surrogate c = false).
    { apply in_range_false. apply in_range_false in Hh, Hl. lia. }
    rewrite Decode_escape_octets, Hde by (assumption || lia).
    cbn [bind]. unfold UTF16EncodeCodePoint.
    now replace (c <=? 65535) with true by (symmetry; bool_true; lia).
Qed.

Lemma decode_encode s :
  WellFormedUnicode s = true ->
  exists e, encodeURIComponent s = Normal e /\ decodeURIComponent e = Normal s.
Proof. apply (Decode_Encode_length (List.length s)). lia. Qed.

End URIFacts.

(** ** Walking rendered trees *)

Lemma select_elem p t a cs :
  select p (VElem t a cs) =
  (if p (VElem t a cs) then [VElem t a cs] else []) ++ flat_map (select p) cs.
Proof.
  unfold select. cbn [descendants filter].
  assert (H : filter p (flat_map descendants cs)
              = flat_map (fun v => filter p (descendants v)) cs).
  { induction cs as [|c cs IH]; [reflexivity|].
    cbn [flat_map]. now rewrite filter_app, IH. }
  rewrite H. now destruct (p (VElem t a cs)).
Qed.

Lemma flat_map_select_app p xs ys :
  flat_map (select p) (xs ++ ys) = flat_map (select p) xs ++ flat_map (select p) ys.
Proof. apply flat_map_app. Qed.

Lemma flat_map_select_none {A} p (f : A -> vnode) xs :
  (forall x, select p (f x) = []) -> flat_map (select p) (map f xs) = [].
Proof.
  intros H. induction xs as [|x xs IH]; [reflexivity|].
  cbn [map flat_map]. now rewrite H, IH.
Qed.

(** Unfolds [select] along the literal part of a tree. *)
Ltac walk := repeat (progress (rewrite ?select_elem; simpl)).

(** ** Strings *)

Lemma jsstring_eqb_eq a b : jsstring_eqb a b = true <-> a = b.
Proof.
  revert b. induction a as [|x a IH]; intros [|y b]; cbn [jsstring_eqb];
    try (split; [discriminate | congruence]); [tauto|].
  rewrite andb_true_iff, Z.eqb_eq, IH. split; [intros [-> ->] | intros [= -> ->]]; auto.
Qed.

Lemma jsstring_eqb_refl a : jsstring_eqb a a = true.
Proof. now apply jsstring_eqb_eq. Qed.

Lemma jsstring_eqb_sym a b : jsstring_eqb a b = jsstring_eqb b a.
Proof.
  destruct (jsstring_eqb a b) eqn:E, (jsstring_eqb b a) eqn:E'; auto.
  - apply jsstring_eqb_eq in E. subst. now rewrite jsstring_eqb_refl in E'.
  - apply jsstring_eqb_eq in E'. subst. now rewrite jsstring_eqb_refl in E.
Qed.

Lemma starts_with_spec search s :
  starts_with search s = true <-> exists after, s = search ++ after.
Proof.
  revert s. induction search as [|x search IH]; intros s; cbn [starts_with].
  - split; [exists s; reflexivity | reflexivity].
  - destruct s as [|y s].
    + split; [discriminate | intros [after H]; discriminate H].
    + rewrite andb_true_iff, Z.eqb_eq, IH. split.
      * intros [-> [after ->]]. now exists after.
      * intros [after [= -> ->]]. split; [reflexivity | now exists after].
Qed.

Lemma includes_spec s search :
  includes s search = true <-> exists before after, s = before ++ search ++ after.
Proof.
  induction s as [|c s IH]; cbn [includes]; rewrite orb_true_iff, starts_with_spec.
  - split.
    + intros [[after H] | H]; [|discriminate]. now exists [], after.
    + intros (before & after & H). left.
      destruct before; [|discriminate]. now exists after.
  - rewrite IH. split.
    + intros [[after H] | (before & after & H)].
      * now exists [], after.
      * exists (c :: before), after. now rewrite H.
    + intros ([|b before] & after & H).
      * left. now exists after.
      * right. injection H as -> ->. now exists before, after.
Qed.

Lemma includes_empty s : includes s [] = true.
Proof. apply includes_spec. now exists [], s. Qed.

Lemma filter_Filtered {A} (P : A -> Prop) (f : A -> bool) all :
  (forall x, f x = true <-> P x) -> Filtered P all (filter f all).
Proof.
  intros Hf. induction all as [|x all IH]; cbn [filter]; [constructor|].
  destruct (f x) eqn:E.
  - apply Filtered_keep; [now apply Hf | assumption].
  - apply Filtered_drop; [|assumption]. rewrite <- Hf. congruence.
Qed.

(** ** The list view *)

Lemma Card_badge_no_card entry :
  select (has_tag "CouncillorCard") (Card.badge entry) = [].
Proof.
  destruct entry as [category results]. unfold Card.badge, when.
  destruct (array_length results >? 0); [|reflexivity].
  walk. unfold Card.getCategoryIcon.
  repeat match goal with |- context [if ?b then _ else _] => destruct b end;
    reflexivity.
Qed.

Lemma CouncillorCard_no_card name data :
  select (has_tag "CouncillorCard") (Card.CouncillorCard name data) = [].
Proof.
  unfold Card.CouncillorCard, Card.summary_block, Card.controversy_line. walk.
  rewrite (flat_map_select_none _ Card.badge) by apply Card_badge_no_card.
  now destruct (_ >? 0).
Qed.

Lemma cards_of_entries entries :
  flat_map (select (has_tag "CouncillorCard")) (map ListView.card entries)
  = map ListView.card entries.
Proof.
  induction entries as [|e entries IH]; [reflexivity|].
  cbn [map flat_map]. rewrite IH. unfold ListView.card at 1.
  rewrite select_elem. cbn [has_tag String.eqb flat_map].
  rewrite CouncillorCard_no_card. reflexivity.
Qed.

Lemma cards_Index {CM : CaseMapping} store searchTerm :
  cards (ListView.Index store searchTerm)
  = map ListView.card (ListView.filteredCouncillors store searchTerm).
Proof.
  unfold cards, ListView.Index. rewrite select_elem.
  cbn [has_tag String.eqb Ascii.eqb Bool.eqb app flat_map].
  rewrite !select_elem. cbn [has_tag String.eqb Ascii.eqb Bool.eqb app flat_map].
  rewrite cards_of_entries.
  unfold when, ListView.empty_state.
  destruct (_ =? 0); cbn; now rewrite ?app_nil_r.
Qed.

(** C1. For every search text the list view renders one card per store entry
    whose name contains the text as a case-insensitive substring, none for
    any other entry, in the order [Object.entries] lists the store. *)
Theorem list_view_shows_exactly_the_matches
        {CM : CaseMapping} (store : CouncillorResults) (s : jsstring) :
  exists shown,
    cards (ListView.Index store s) = map ListView.card shown
    /\ Filtered (fun entry => contains_ci (fst entry) s) (Object_entries store) shown.
Proof.
  exists (ListView.filteredCouncillors store s). split; [apply cards_Index|].
  apply filter_Filtered. intros [name data]. apply includes_spec.
Qed.

(** C8. With the empty search text the list view shows a card for every
    entry of the store. *)
Theorem empty_search_shows_all
        {CM : CaseMapping} (store : CouncillorResults) :
  cards (ListView.Index store []) = map ListView.card (Object_entries store).
Proof.
  rewrite cards_Index. unfold ListView.filteredCouncillors. f_equal.
  apply forallb_filter_id, forallb_forall. intros entry _.
  unfold ListView.matches. rewrite toLowerCase_empty. apply includes_empty.
Qed.

(** ** The card and the header take their figures from the summary *)

Ltac split_ifs :=
  repeat match goal with
         | |- context [if ?b then _ else _] => destruct b
         end.

Lemma Card_badge_not_red entry :
  select (has_class "text-red-500") (Card.badge entry) = [].
Proof.
  destruct entry as [category results]. unfold Card.badge, when.
  destruct (array_length results >? 0); [|reflexivity].
  walk. unfold Card.getCategoryIcon. split_ifs; reflexivity.
Qed.

Lemma Card_badge_not_summary entry :
  select (has_class "text-gray-600") (Card.badge entry) = [].
Proof.
  destruct entry as [category results]. unfold Card.badge, when.
  destruct (array_length results >? 0); [|reflexivity].
  walk. unfold Card.getCategoryIcon. split_ifs; reflexivity.
Qed.

(** The red elements of a card: the controversy line, when the summary's
    count is positive. *)
Lemma red_of_CouncillorCard name data :
  select (has_class "text-red-500") (Card.CouncillorCard name data)
  = if data.(summary).(controversy_count) >? 0
    then [Card.controversy_line data.(summary).(controversy_count)]
    else [].
Proof.
  unfold Card.CouncillorCard, Card.summary_block. walk.
  rewrite (flat_map_select_none _ Card.badge) by apply Card_badge_not_red.
  unfold when. destruct (_ >? 0); reflexivity.
Qed.

Lemma summary_of_CouncillorCard name data :
  select (has_class "text-gray-600") (Card.CouncillorCard name data)
  = [Card.summary_block data.(summary)].
Proof.
  unfold Card.CouncillorCard. walk.
  rewrite (flat_map_select_none _ Card.badge) by apply Card_badge_not_summary.
  unfold Card.summary_block at 1. walk.
  unfold when. destruct (_ >? 0); reflexivity.
Qed.

Lemma result_cards_none p index results :
  p = has_class "text-red-500" \/ p = has_class "bg-gray-50"
  \/ (exists category, p = is_section category) ->
  flat_map (select p) (Detail.result_cards index results) = [].
Proof.
  intros Hp. revert index.
  induction results as [|r results IH]; intros index; [reflexivity|].
  cbn [Detail.result_cards flat_map]. rewrite IH.
  destruct Hp as [-> | [-> | [category ->]]]; unfold Detail.ResultCard, when_string;
    walk; destruct (truthy _); reflexivity.
Qed.

Lemma section_not_red entry :
  select (has_class "text-red-500") (Detail.section entry) = [].
Proof.
  destruct entry as [category results]. unfold Detail.section. walk.
  rewrite flat_map_select_app, result_cards_none by auto.
  unfold Detail.getCategoryIcon, when. split_ifs; reflexivity.
Qed.

Lemma section_no_figure entry :
  select (has_class "bg-gray-50") (Detail.section entry) = [].
Proof.
  destruct entry as [category results]. unfold Detail.section. walk.
  rewrite flat_map_select_app, result_cards_none by auto.
  unfold Detail.getCategoryIcon, when. split_ifs; reflexivity.
Qed.

(** The red element of the detail page: the controversy count of the
    header. *)
Lemma red_of_page name data :
  select (has_class "text-red-500") (Detail.page name data)
  = [VElem "p" [className "text-2xl text-red-500"]
       [VNum data.(summary).(controversy_count)]].
Proof.
  unfold Detail.page, Detail.header, Detail.figures, Detail.figure. walk.
  now rewrite (flat_map_select_none _ Detail.section) by apply section_not_red.
Qed.

Lemma figures_of_page name data :
  select (has_class "bg-gray-50") (Detail.page name data)
  = Detail.figures data.(summary).
Proof.
  unfold Detail.page, Detail.header, Detail.figures, Detail.figure. walk.
  now rewrite (flat_map_select_none _ Detail.section) by apply section_no_figure.
Qed.

(** C2 fails as stated: under a summary whose count differs from the length
    of [categories.controversy], the card and the header show the summary's
    count. *)
Lemma controversy_length_not_shown :
  controversy Example.jane_stale.(categories) = Some [Example.result_X]
  /\ ~ shows_controversy_length (js "Jane Doe") Example.jane_stale
       (array_length [Example.result_X]).
Proof.
  split; [reflexivity|]. intros [H _].
  destruct (H ltac:(reflexivity)) as [_ Hheader].
  rewrite red_of_page in Hheader. discriminate Hheader.
Qed.

(** C2, amended. For every record whose summary's [controversy_count]
    equals the length [N] of [categories.controversy]: when [N > 0] the red
    line of the card and the controversy figure of the detail header both
    display [N]; when [N = 0] the card has no red line. *)
Theorem controversy_count_shown
        (name : jsstring) (d : CouncillorData) (l : list SearchResult) :
  controversy d.(categories) = Some l ->
  d.(summary).(controversy_count) = array_length l ->
  shows_controversy_length name d (array_length l).
Proof.
  intros _ Hcount. unfold shows_controversy_length.
  rewrite red_of_CouncillorCard, red_of_page, Hcount. split.
  - intros HN. apply Z.gtb_gt in HN. now rewrite HN.
  - intros ->. reflexivity.
Qed.

Lemma controversy_count_shown_witness :
  controversy Example.jane.(categories) = Some [Example.result_X]
  /\ Example.jane.(summary).(controversy_count) = array_length [Example.result_X]
  /\ shows_controversy_length (js "Jane Doe") Example.jane
       (array_length [Example.result_X]).
Proof.
  split; [reflexivity|]. split; [reflexivity|].
  apply (controversy_count_shown (js "Jane Doe") Example.jane [Example.result_X]);
    reflexivity.
Defined.

(** C7. Two records with equal summaries get the same summary block on the
    card (Total Results, Controversy Items) and the same three figures in
    the detail header, whatever their categories hold. *)
Theorem figures_depend_on_summary_only
        (name : jsstring) (d1 d2 : CouncillorData) :
  d1.(summary) = d2.(summary) ->
  (select (has_class "text-gray-600") (Card.CouncillorCard name d1)
   = [Card.summary_block d1.(summary)]
   /\ select (has_class "text-gray-600") (Card.CouncillorCard name d2)
      = select (has_class "text-gray-600") (Card.CouncillorCard name d1))
  /\ (select (has_class "bg-gray-50") (Detail.page name d1)
      = Detail.figures d1.(summary)
      /\ select (has_class "bg-gray-50") (Detail.page name d2)
         = select (has_class "bg-gray-50") (Detail.page name d1)).
Proof.
  intros H. rewrite !summary_of_CouncillorCard, !figures_of_page, H. auto.
Qed.

Lemma figures_depend_on_summary_only_witness :
  Example.jane.(summary) = Example.jane_bare.(summary)
  /\ select (has_class "text-gray-600")
            (Card.CouncillorCard (js "Jane Doe") Example.jane_bare)
     = select (has_class "text-gray-600")
              (Card.CouncillorCard (js "Jane Doe") Example.jane)
  /\ select (has_class "bg-gray-50")
            (Detail.page (js "Jane Doe") Example.jane_bare)
     = select (has_class "bg-gray-50")
              (Detail.page (js "Jane Doe") Example.jane).
Proof.
  split; [reflexivity|].
  destruct (figures_depend_on_summary_only (js "Jane Doe") Example.jane
              Example.jane_bare eq_refl) as [[_ Hcard] [_ Hheader]].
  split; [exact Hcard | exact Hheader].
Defined.

(** ** The detail view *)

Lemma get_own_None {A} (o : jsobject A) k : get_own o k = None <-> ~ In k (keys o).
Proof.
  induction o as [|[k' a] o IH]; cbn [get_own keys map fst In]; [tauto|].
  destruct (jsstring_eqb k k') eqn:E.
  - apply jsstring_eqb_eq in E. subst. split; [discriminate | tauto].
  - rewrite IH. unfold keys. split; [|tauto].
    intros H [Heq | Hin]; [|tauto]. subst.
    now rewrite jsstring_eqb_refl in E.
Qed.

Lemma section_not_excluded excluded entry :
  jsstring_eqb (fst entry) excluded = false ->
  select (is_section excluded) (Detail.section entry) = [].
Proof.
  destruct entry as [category results]. cbn [fst]. intros Hne.
  unfold Detail.section. rewrite select_elem.
  unfold is_section at 1. cbn [has_tag has_attr attr_of lookup_attr String.eqb
                                Ascii.eqb Bool.eqb andb].
  rewrite jsstring_eqb_sym, Hne. walk.
  rewrite flat_map_select_app, result_cards_none by eauto.
  unfold Detail.getCategoryIcon, when. split_ifs; reflexivity.
Qed.

Lemma filteredCategories_excludes c entry :
  In entry (Detail.filteredCategories c) ->
  jsstring_eqb (fst entry) (js "basic_info") = false
  /\ jsstring_eqb (fst entry) (js "social_media") = false.
Proof.
  unfold Detail.filteredCategories. rewrite filter_In. intros [_ H].
  apply negb_true_iff in H. unfold array_includes in H. cbn [existsb] in H.
  now rewrite !orb_false_iff in H.
Qed.

Lemma page_has_no_section excluded name data :
  excluded = js "basic_info" \/ excluded = js "social_media" ->
  select (is_section excluded) (Detail.page name data) = [].
Proof.
  intros Hex. unfold Detail.page, Detail.header, Detail.figures, Detail.figure.
  assert (Hs : flat_map (select (is_section excluded))
                 (map Detail.section (Detail.filteredCategories data.(categories)))
               = []).
  { generalize (filteredCategories_excludes data.(categories)).
    induction (Detail.filteredCategories data.(categories)) as [|e es IH];
      intros Hall; [reflexivity|].
    cbn [map flat_map]. rewrite IH by (intros; apply Hall; now right).
    destruct (Hall e (or_introl eq_refl)) as [Hb Hm].
    rewrite section_not_excluded; [reflexivity|].
    destruct Hex as [-> | ->]; assumption. }
  destruct Hex as [-> | ->]; walk; now rewrite Hs.
Qed.

(** C5. Whatever the categories of the record hold, what the detail view
    renders has no accordion section for [basic_info] and none for
    [social_media]. *)
Theorem detail_never_shows_identity_sections
        (store : CouncillorResults) (name : option jsstring) (v : vnode) :
  Detail.CouncillorDetail store name = Normal v ->
  select (is_section (js "basic_info")) v = []
  /\ select (is_section (js "social_media")) v = [].
Proof.
  unfold Detail.CouncillorDetail. destruct name as [route|].
  - destruct (negb (truthy route)); [intros [= <-]; now split|].
    destruct (URI.decodeURIComponent route) as [decoded|]; [|discriminate].
    cbn [bind]. destruct (Get store decoded) as [d| |].
    + intros [= <-]. split; apply page_has_no_section; auto.
    + discriminate.
    + intros [= <-]. now split.
  - intros [= <-]. now split.
Qed.

Lemma detail_never_shows_identity_sections_witness :
  Detail.CouncillorDetail Example.store (Some (js "Jane%20Doe"))
  = Normal (Detail.page (js "Jane Doe") Example.jane)
  /\ select (is_section (js "basic_info"))
            (Detail.page (js "Jane Doe") Example.jane) = []
  /\ select (is_section (js "social_media"))
            (Detail.page (js "Jane Doe") Example.jane) = [].
Proof.
  split; [reflexivity|].
  apply (detail_never_shows_identity_sections Example.store
           (Some (js "Jane%20Doe"))).
  reflexivity.
Defined.

(** C9. The result card renders the [search_time] span exactly when the
    value is truthy, although the field is a required string of the
    record; a falsy value leaves the Relevance span alone. *)
Theorem search_time_rendered_when_truthy (result : SearchResult) :
  select (has_tag "span") (Detail.ResultCard result)
  = VElem "span" []
      [VText (js "Relevance: "); VFixed result.(relevance_score) 1]
    :: (if truthy result.(search_time)
        then [VElem "span" [] [VText result.(search_time)]]
        else []).
Proof.
  unfold Detail.ResultCard, when_string. walk.
  destruct (truthy _); reflexivity.
Qed.

(** C10. Without a route parameter the detail view returns [null], not the
    not-found message; the not-found message is returned only for a
    parameter that is present and decodes to a name that is not a key of
    the store. *)
Theorem absent_name_renders_nothing (store : CouncillorResults) :
  Detail.CouncillorDetail store None = Normal VNull
  /\ Detail.CouncillorDetail store None <> Normal Detail.not_found
  /\ forall name,
       Detail.CouncillorDetail store name = Normal Detail.not_found ->
       exists route decoded,
         name = Some route
         /\ URI.decodeURIComponent route = Normal decoded
         /\ ~ In decoded (keys store).
Proof.
  split; [reflexivity|]. split; [discriminate|].
  intros [route|]; [|discriminate]. unfold Detail.CouncillorDetail.
  destruct (negb (truthy route)); [discriminate|].
  destruct (URI.decodeURIComponent route) as [decoded|] eqn:Hd; [|discriminate].
  cbn [bind]. unfold Get. destruct (get_own store decoded) eqn:E.
  - discriminate.
  - intros _. exists route, decoded.
    split; [reflexivity|]. split; [exact Hd|]. now apply get_own_None.
Qed.

Lemma absent_name_renders_nothing_witness :
  exists route decoded,
    Some (js "Nobody") = Some route
    /\ URI.decodeURIComponent route = Normal decoded
    /\ ~ In decoded (keys Example.store).
Proof.
  apply (absent_name_renders_nothing Example.store). reflexivity.
Defined.

(** A parameter that decodes to a name that is neither a key of the store
    nor a property of [Object.prototype] gets the not-found message and
    nothing else. *)
Lemma unknown_name_not_found (store : CouncillorResults) (route decoded : jsstring) :
  route <> [] ->
  URI.decodeURIComponent route = Normal decoded ->
  ~ In decoded (keys store) ->
  array_includes Object_prototype_names decoded = false ->
  Detail.CouncillorDetail store (Some route) = Normal Detail.not_found.
Proof.
  intros Hroute Hdec Hkey Hproto. unfold Detail.CouncillorDetail.
  destruct route; [congruence|]. cbn [truthy negb]. rewrite Hdec. cbn [bind].
  unfold Get. apply get_own_None in Hkey. now rewrite Hkey, Hproto.
Qed.

(** C4, the failing input. The route name [constructor] is not a key of the
    store, yet the lookup finds [Object.prototype.constructor]; the view
    takes it for a record and raises TypeError instead of rendering the
    not-found message. *)
Theorem inherited_name_raises (store : CouncillorResults) :
  ~ In (js "constructor") (keys store) ->
  Detail.CouncillorDetail store (Some (js "constructor")) = Throw TypeError.
Proof.
  intros Hkey. unfold Detail.CouncillorDetail. cbn [truthy negb js map
    list_ascii_of_string].
  change (URI.decodeURIComponent _) with (Normal (js "constructor")).
  cbn [bind]. unfold Get. apply get_own_None in Hkey. now rewrite Hkey.
Qed.

Lemma inherited_name_raises_witness :
  ~ In (js "constructor") (keys Example.store)
  /\ Detail.CouncillorDetail Example.store (Some (js "constructor"))
     = Throw TypeError.
Proof.
  assert (H : ~ In (js "constructor") (keys Example.store)).
  { intros [H | []]. discriminate H. }
  split; [exact H | exact (inherited_name_raises Example.store H)].
Defined.

(** C3, the failing input. The route parameter [%] is not a well-formed
    escape: [decodeURIComponent] raises URIError and the detail view
    produces neither a page nor the not-found message, whatever the store. *)
Theorem malformed_escape_raises (store : CouncillorResults) :
  Detail.CouncillorDetail store (Some (js "%")) = Throw URIError.
Proof. reflexivity. Qed.

(** ** From a card to its detail page *)

Lemma escaped_code_point_truthy cp rest :
  truthy (URI.escape_octets (URI.utf8_encode cp) ++ rest) = true.
Proof. unfold URI.utf8_encode. split_ifs; reflexivity. Qed.

Lemma Encode_truthy s e :
  URI.Encode s = Normal e -> s <> [] -> truthy e = true.
Proof.
  destruct s as [|c t]; [congruence|]. intros H _. cbn [URI.Encode] in H.
  destruct (URI.unreserved c).
  { destruct (URI.Encode t); [|discriminate]. now injection H as <-. }
  destruct (URI.is_high_surrogate c).
  { destruct t as [|d t']; [discriminate|].
    destruct (URI.is_low_surrogate d); [|discriminate].
    destruct (URI.Encode t'); [|discriminate].
    injection H as <-. apply escaped_code_point_truthy. }
  destruct (URI.is_low_surrogate c); [discriminate|].
  destruct (URI.Encode t); [|discriminate].
  injection H as <-. apply escaped_code_point_truthy.
Qed.

(** Where the round trip cannot start: for a key that is an unpaired
    surrogate the click handler raises URIError instead of navigating, and
    for the key that is the empty string the parameter is empty and the
    view returns [null]. *)
Lemma click_fails_on_lone_surrogate :
  (get_own [(Example.lone_surrogate, Example.jane)] Example.lone_surrogate
   = Some Example.jane
   /\ ~ click_opens_record [(Example.lone_surrogate, Example.jane)]
        Example.lone_surrogate Example.jane)
  /\ (get_own [([], Example.jane)] [] = Some Example.jane
      /\ ~ click_opens_record [([], Example.jane)] [] Example.jane).
Proof.
  split; (split; [reflexivity|]).
  - intros (encoded & H & _). discriminate H.
  - intros (encoded & H & _ & Hview).
    assert (Henc : encoded = []).
    { injection H as H. destruct encoded; [reflexivity | discriminate H]. }
    subst encoded. discriminate Hview.
Qed.

(** C6, the failing input. For the key [100%] the card navigates to
    [/councillor/100%25]; the router hands the view the decoded name
    [100%], the view decodes it a second time and raises URIError: the
    record stored under the key is not found, whatever the store. *)
Theorem percent_name_is_decoded_twice
        (store : CouncillorResults) (data : CouncillorData) :
  Card.onClick Example.all_in = Normal (js "/councillor/100%25")
  /\ URI.decodeURIComponent (js "100%25") = Normal Example.all_in
  /\ Router.param (js "100%25") = Example.all_in
  /\ Detail.CouncillorDetail store (Some (Router.param (js "100%25")))
     = Throw URIError
  /\ ~ click_opens_record store Example.all_in data.
Proof.
  repeat (split; [reflexivity|]).
  intros (encoded & H & _ & Hview).
  assert (Henc : encoded = js "100%25") by (injection H as H; now subst).
  subst encoded. discriminate Hview.
Qed.

(** ** The list view: search behaviour *)

Lemma Card_badge_not_centered entry :
  select (has_class "text-center") (Card.badge entry) = [].
Proof.
  destruct entry as [category results]. unfold Card.badge, when.
  destruct (array_length results >? 0); [|reflexivity].
  walk. unfold Card.getCategoryIcon. split_ifs; reflexivity.
Qed.

Lemma CouncillorCard_not_centered name data :
  select (has_class "text-center") (Card.CouncillorCard name data) = [].
Proof.
  unfold Card.CouncillorCard, Card.summary_block, Card.controversy_line. walk.
  rewrite (flat_map_select_none _ Card.badge) by apply Card_badge_not_centered.
  now destruct (_ >? 0).
Qed.

Lemma centered_of_Index {CM : CaseMapping} store searchTerm :
  select (has_class "text-center") (ListView.Index store searchTerm)
  = match ListView.filteredCouncillors store searchTerm with
    | [] => [ListView.empty_state]
    | _ :: _ => []
    end.
Proof.
  unfold ListView.Index. walk.
  rewrite (flat_map_select_none _ ListView.card).
  - destruct (ListView.filteredCouncillors store searchTerm); reflexivity.
  - intros entry. unfold ListView.card. walk.
    now rewrite CouncillorCard_not_centered.
Qed.

Lemma matches_spec {CM : CaseMapping} s name :
  ListView.matches s name = true <-> contains_ci name s.
Proof. apply includes_spec. Qed.

(** X1. The empty-state message is rendered exactly when no name in the
    store contains the search text: it is then the only centered element,
    and in every other case there is no centered element at all; no card
    is rendered exactly in the same case. *)
Theorem empty_state_iff_no_match
        {CM : CaseMapping} (store : CouncillorResults) (s : jsstring) :
  let no_match :=
    forall entry, In entry (Object_entries store) -> ~ contains_ci (fst entry) s in
  let centered := select (has_class "text-center") (ListView.Index store s) in
  (no_match
   <-> centered
       = [VElem "p" [className "text-center text-gray-500 mt-8"]
            [VText (js "No councillors found matching your search.")]])
  /\ (~ no_match <-> centered = [])
  /\ (no_match <-> cards (ListView.Index store s) = []).
Proof.
  cbv zeta. rewrite centered_of_Index, cards_Index.
  unfold ListView.filteredCouncillors.
  set (shown := filter (fun entry => ListView.matches s (fst entry))
                       (Object_entries store)).
  assert (Hshown : (forall entry, In entry (Object_entries store) ->
                                  ~ contains_ci (fst entry) s)
                   <-> shown = []).
  { split.
    - intros Hnone. destruct shown as [|e es] eqn:E; [reflexivity|].
      assert (Hin : In e shown) by (rewrite E; now left).
      apply filter_In in Hin as [Hin Hm].
      apply matches_spec in Hm. now destruct (Hnone e Hin).
    - intros Hnil entry Hin Hc.
      assert (Hf : In entry shown).
      { apply filter_In. split; [assumption | now apply matches_spec]. }
      now rewrite Hnil in Hf. }
  rewrite Hshown. destruct shown as [|e es].
  - split; [|split].
    + split; reflexivity.
    + split; [intros H; now destruct H | discriminate].
    + split; reflexivity.
  - split; [|split].
    + split; discriminate.
    + split; [reflexivity | discriminate].
    + split; discriminate.
Qed.

(** X2. Searching for the full name of a councillor of the store shows that
    councillor's card. *)
Theorem own_name_finds_card
        {CM : CaseMapping} (store : CouncillorResults) (name : jsstring)
        (data : CouncillorData) :
  In (name, data) (Object_entries store) ->
  In (ListView.card (name, data)) (cards (ListView.Index store name)).
Proof.
  intros Hin. rewrite cards_Index. apply in_map.
  unfold ListView.filteredCouncillors. apply filter_In. split; [assumption|].
  apply matches_spec. exists [], []. now rewrite app_nil_r.
Qed.

Lemma own_name_finds_card_witness :
  In (js "Jane Doe", Example.jane) (Object_entries Example.store)
  /\ In (ListView.card (js "Jane Doe", Example.jane))
        (cards (ListView.Index Example.store (js "Jane Doe"))).
Proof.
  assert (H : In (js "Jane Doe", Example.jane) (Object_entries Example.store))
    by (left; reflexivity).
  split; [exact H | exact (own_name_finds_card _ _ _ H)].
Defined.

Lemma includes_trans a b c :
  includes a b = true -> includes b c = true -> includes a c = true.
Proof.
  rewrite !includes_spec. intros (p & q & ->) (p' & q' & ->).
  exists (p ++ p'), (q' ++ q). now rewrite <- !app_assoc.
Qed.

(** X3. Extending the search text never adds a card: when the lower-cased
    new text contains the lower-cased old one, every card shown for the new
    text was shown for the old one. *)
Theorem longer_search_shows_fewer
        {CM : CaseMapping} (store : CouncillorResults) (s s' : jsstring) :
  includes (toLowerCase s') (toLowerCase s) = true ->
  incl (cards (ListView.Index store s')) (cards (ListView.Index store s)).
Proof.
  intros Hsub v. rewrite !cards_Index, !in_map_iff.
  intros (entry & <- & Hin). exists entry. split; [reflexivity|].
  unfold ListView.filteredCouncillors in *. rewrite filter_In in *.
  destruct Hin as [Hin Hm]. split; [assumption|].
  unfold ListView.matches in *. eapply includes_trans; eassumption.
Qed.

Lemma longer_search_shows_fewer_witness :
  includes (toLowerCase (js "Jane D")) (toLowerCase (js "jan")) = true
  /\ incl (cards (ListView.Index Example.store (js "Jane D")))
          (cards (ListView.Index Example.store (js "jan"))).
Proof.
  split; [reflexivity|].
  exact (longer_search_shows_fewer Example.store (js "jan") (js "Jane D") eq_refl).
Defined.

(** ** The card: badges and icons *)

Lemma Card_getCategoryIcon_no_badge category :
  select (has_tag "Badge") (Card.getCategoryIcon category) = [].
Proof. unfold Card.getCategoryIcon. split_ifs; reflexivity. Qed.

Lemma badges_of_badge entry :
  select (has_tag "Badge") (Card.badge entry)
  = if array_length (snd entry) >? 0
    then [badge_element (fst entry) (array_length (snd entry))]
    else [].
Proof.
  destruct entry as [category results]. cbn [fst snd]. unfold Card.badge, when.
  destruct (array_length results >? 0); [|reflexivity].
  rewrite select_elem. cbn [has_tag String.eqb Ascii.eqb Bool.eqb flat_map].
  rewrite Card_getCategoryIcon_no_badge. reflexivity.
Qed.

(** X4. A card has one badge per category that holds at least one result,
    in the order of the record's categories, showing the number of results;
    a category without results gets no badge. *)
Theorem badges_are_the_nonempty_categories
        (name : jsstring) (data : CouncillorData) :
  select (has_tag "Badge") (Card.CouncillorCard name data)
  = map (fun entry => badge_element (fst entry) (array_length (snd entry)))
        (filter (fun entry => negb (Nat.eqb (List.length (snd entry)) 0))
                (Object_entries data.(categories))).
Proof.
  unfold Card.CouncillorCard, Card.summary_block, Card.controversy_line. walk.
  replace (select (has_tag "Badge") (when _ _)) with (@nil vnode)
    by (unfold when; now destruct (_ >? 0)).
  rewrite !app_nil_r. unfold Object_entries.
  induction data.(categories) as [|[category results] entries IH]; [reflexivity|].
  cbn [map flat_map filter]. rewrite IH, badges_of_badge. cbn [fst snd].
  unfold array_length. destruct results as [|r rs]; reflexivity.
Qed.

(** X5. The card's icon lookup gives an icon for each of the four category
    names and nothing for any other. *)
Theorem card_icon_for_known_categories (category : jsstring) :
  Card.getCategoryIcon category = VNull
  <-> ~ In category
        [js "basic_info"; js "business_interests"; js "social_media";
         js "controversy"].
Proof.
  unfold Card.getCategoryIcon. cbn [In].
  destruct (jsstring_eqb category (js "basic_info")) eqn:E1.
  { apply jsstring_eqb_eq in E1. subst. split; [discriminate | intros H; exfalso; apply H; auto 6]. }
  destruct (jsstring_eqb category (js "business_interests")) eqn:E2.
  { apply jsstring_eqb_eq in E2. subst. split; [discriminate | intros H; exfalso; apply H; auto 6]. }
  destruct (jsstring_eqb category (js "social_media")) eqn:E3.
  { apply jsstring_eqb_eq in E3. subst. split; [discriminate | intros H; exfalso; apply H; auto 6]. }
  destruct (jsstring_eqb category (js "controversy")) eqn:E4.
  { apply jsstring_eqb_eq in E4. subst. split; [discriminate | intros H; exfalso; apply H; auto 6]. }
  split; [|reflexivity]. intros _ H.
  destruct H as [<- | [<- | [<- | [<- | []]]]];
    rewrite jsstring_eqb_refl in *; discriminate.
Qed.

(** ** The detail view: sections *)

(** X6. The detail view's icon lookup knows two categories only: it gives
    an icon for [business_interests] and [controversy] and nothing for any
    other name, [basic_info] and [social_media] included. *)
Theorem detail_icon_for_two_categories (category : jsstring) :
  Detail.getCategoryIcon category = VNull
  <-> ~ In category [js "business_interests"; js "controversy"].
Proof.
  unfold Detail.getCategoryIcon. cbn [In].
  destruct (jsstring_eqb category (js "business_interests")) eqn:E1.
  { apply jsstring_eqb_eq in E1. subst. split; [discriminate | intros H; exfalso; apply H; auto 6]. }
  destruct (jsstring_eqb category (js "controversy")) eqn:E2.
  { apply jsstring_eqb_eq in E2. subst. split; [discriminate | intros H; exfalso; apply H; auto 6]. }
  split; [|reflexivity]. intros _ H.
  destruct H as [<- | [<- | []]]; rewrite jsstring_eqb_refl in *; discriminate.
Qed.

Lemma result_cards_no_item index results :
  flat_map (select (has_tag "AccordionItem")) (Detail.result_cards index results)
  = [].
Proof.
  revert index. induction results as [|r results IH]; intros index; [reflexivity|].
  cbn [Detail.result_cards flat_map]. rewrite IH.
  unfold Detail.ResultCard, when_string. walk. destruct (truthy _); reflexivity.
Qed.

Lemma items_of_section entry :
  select (has_tag "AccordionItem") (Detail.section entry) = [Detail.section entry].
Proof.
  destruct entry as [category results]. unfold Detail.section at 1.
  rewrite select_elem. cbn [has_tag String.eqb Ascii.eqb Bool.eqb app]. f_equal.
  walk. rewrite flat_map_select_app, result_cards_no_item.
  unfold Detail.getCategoryIcon, when. split_ifs; reflexivity.
Qed.

Lemma items_of_page name data :
  select (has_tag "AccordionItem") (Detail.page name data)
  = map Detail.section (Detail.filteredCategories data.(categories)).
Proof.
  unfold Detail.page, Detail.header, Detail.figures, Detail.figure. walk.
  rewrite app_nil_r.
  induction (Detail.filteredCategories data.(categories)) as [|e es IH];
    [reflexivity|].
  cbn [map flat_map]. now rewrite IH, items_of_section.
Qed.

(** X7. The accordion of a found record has one section per category other
    than [basic_info] and [social_media], in the order of the record's
    categories, whether or not the category holds results. *)
Theorem sections_are_the_other_categories
        (name : jsstring) (data : CouncillorData) :
  map (attr_of "value")
      (select (has_tag "AccordionItem") (Detail.page name data))
  = map (fun category => Some (AStr category))
        (filter (fun category => negb (identity_category category))
                (keys data.(categories))).
Proof.
  rewrite items_of_page. unfold Detail.filteredCategories, Object_entries, keys.
  induction data.(categories) as [|[category results] entries IH];
    [reflexivity|].
  cbn [filter map fst]. unfold identity_category in *.
  destruct (negb (array_includes _ category)); cbn [map]; now rewrite IH.
Qed.

Lemma result_cards_length index results :
  List.length (Detail.result_cards index results) = List.length results.
Proof.
  revert index. induction results as [|r rs IH]; intros index; [reflexivity|].
  cbn [Detail.result_cards List.length]. now rewrite IH.
Qed.

Lemma result_cards_nth index results i :
  nth_error (Detail.result_cards index results) i
  = option_map
      (fun r => VElem "ResultCard" [("key"%string, ANum (index + Z.of_nat i))]
                  [Detail.ResultCard r])
      (nth_error results i).
Proof.
  revert index i. induction results as [|r rs IH]; intros index [|i];
    cbn [Detail.result_cards nth_error option_map]; try reflexivity.
  - now rewrite Z.add_0_r.
  - replace (index + Z.of_nat (S i)) with (index + 1 + Z.of_nat i) by lia.
    apply IH.
Qed.

Lemma result_cards_selected index results :
  flat_map (select (has_tag "ResultCard")) (Detail.result_cards index results)
  = Detail.result_cards index results.
Proof.
  revert index. induction results as [|r rs IH]; intros index; [reflexivity|].
  cbn [Detail.result_cards flat_map]. rewrite IH.
  unfold Detail.ResultCard, when_string. walk. destruct (truthy _); reflexivity.
Qed.

Lemma result_cards_of_section category results :
  select (has_tag "ResultCard") (Detail.section (category, results))
  = Detail.result_cards 0 results.
Proof.
  unfold Detail.section. walk.
  rewrite flat_map_select_app, result_cards_selected.
  unfold Detail.getCategoryIcon, when. split_ifs; cbn; now rewrite ?app_nil_r.
Qed.

Lemma result_cards_no_heading index results :
  flat_map (select (has_tag "AccordionTrigger")) (Detail.result_cards index results)
  = [].
Proof.
  revert index. induction results as [|r results IH]; intros index; [reflexivity|].
  cbn [Detail.result_cards flat_map]. rewrite IH.
  unfold Detail.ResultCard, when_string. walk. destruct (truthy _); reflexivity.
Qed.

(** X8. A section holds one result card per result of its category, in the
    order of the results and keyed by position, and the number in the
    section's heading is the number of those cards. *)
Theorem section_lists_every_result
        (category : jsstring) (results : list SearchResult) :
  let shown := select (has_tag "ResultCard") (Detail.section (category, results)) in
  List.length shown = List.length results
  /\ (forall i,
        nth_error shown i
        = option_map
            (fun r => VElem "ResultCard" [("key"%string, ANum (Z.of_nat i))]
                        [Detail.ResultCard r])
            (nth_error results i))
  /\ select (has_tag "AccordionTrigger") (Detail.section (category, results))
     = [section_heading category (array_length shown)].
Proof.
  cbv zeta. rewrite result_cards_of_section. split; [|split].
  - apply result_cards_length.
  - intros i. now rewrite result_cards_nth.
  - unfold array_length. rewrite result_cards_length.
    unfold Detail.section. rewrite select_elem.
    cbn [has_tag String.eqb Ascii.eqb Bool.eqb app flat_map].
    rewrite !select_elem.
    cbn [has_tag String.eqb Ascii.eqb Bool.eqb app flat_map].
    rewrite flat_map_select_app, result_cards_no_heading.
    unfold section_heading, array_length, Detail.getCategoryIcon, when.
    split_ifs; reflexivity.
Qed.

Lemma result_cards_not_italic index results :
  flat_map (select (has_class "italic")) (Detail.result_cards index results) = [].
Proof.
  revert index. induction results as [|r results IH]; intros index; [reflexivity|].
  cbn [Detail.result_cards flat_map]. rewrite IH.
  unfold Detail.ResultCard, when_string. walk. destruct (truthy _); reflexivity.
Qed.

(** X9. A section shows the "No results found" message exactly when its
    category holds no result. *)
Theorem no_results_message_iff_empty
        (category : jsstring) (results : list SearchResult) :
  select (has_class "italic") (Detail.section (category, results))
  = match results with
    | [] => [no_results]
    | _ :: _ => []
    end.
Proof.
  unfold Detail.section. walk.
  rewrite flat_map_select_app, result_cards_not_italic.
  unfold Detail.getCategoryIcon.
  destruct results; split_ifs; reflexivity.
Qed.

(** ** The click handler of a card *)

Module URISafety.
Import URI URIFacts.

Lemma unreserved_range c : unreserved c = true -> 33 <= c <= 126.
Proof.
  unfold unreserved. cbn [existsb]. rewrite !orb_true_iff, !in_range_spec, !Z.eqb_eq.
  intuition lia.
Qed.

Lemma unreserved_not_surrogate c :
  unreserved c = true -> is_high_surrogate c = false /\ is_low_surrogate c = false.
Proof.
  intros H. apply unreserved_range in H.
  split; apply in_range_false; lia.
Qed.

Lemma code_unit_range c : is_code_unit c = true <-> 0 <= c <= 65535.
Proof. unfold is_code_unit. rewrite andb_true_iff, !Z.leb_le. tauto. Qed.

(** [Encode] succeeds on well-formed strings only. *)
Lemma Encode_Normal_wf n :
  forall s e, (List.length s <= n)%nat -> code_units s ->
  Encode s = Normal e -> WellFormedUnicode s = true.
Proof.
  induction n as [|n IH]; intros s e Hlen Hcu Henc.
  { destruct s; [reflexivity | cbn in Hlen; lia]. }
  destruct s as [|c t]; [reflexivity|].
  apply Forall_cons_iff in Hcu as [Hc Ht].
  cbn [WellFormedUnicode Encode List.length] in *. rewrite Hc. cbn [andb].
  destruct (unreserved c) eqn:Hu.
  { destruct (unreserved_not_surrogate c Hu) as [-> ->]. cbn [negb andb].
    destruct (Encode t) as [r|] eqn:E; [|discriminate].
    apply (IH t r); [lia | assumption | assumption]. }
  destruct (is_high_surrogate c).
  - destruct t as [|d t']; [discriminate|].
    apply Forall_cons_iff in Ht as [Hd Ht'].
    destruct (is_low_surrogate d); [|discriminate].
    rewrite Hd. cbn [andb].
    destruct (Encode t') as [r|] eqn:E; [|discriminate].
    cbn [List.length] in Hlen. apply (IH t' r); [lia | assumption | assumption].
  - destruct (is_low_surrogate c); [discriminate|]. cbn [negb andb].
    destruct (Encode t) as [r|] eqn:E; [|discriminate].
    apply (IH t r); [lia | assumption | assumption].
Qed.

Lemma Encode_throws_URIError s : forall e, Encode s = Throw e -> e = URIError.
Proof.
  remember (List.length s) as n eqn:Hn. revert s Hn.
  induction n as [n IH] using lt_wf_ind. intros s -> e.
  destruct s as [|c t]; [discriminate|]. cbn [Encode].
  assert (Ht : forall e', Encode t = Throw e' -> e' = URIError).
  { intros e'. apply (IH (List.length t)); [cbn; lia | reflexivity]. }
  destruct (unreserved c).
  { destruct (Encode t); [discriminate|]. cbn [bind]. intros [= <-]. now apply Ht. }
  destruct (is_high_surrogate c).
  - destruct t as [|d t']; [intros [= <-]; reflexivity|].
    destruct (is_low_surrogate d); [|intros [= <-]; reflexivity].
    destruct (Encode t') eqn:E; [discriminate|]. cbn [bind]. intros [= <-].
    apply (IH (List.length t') ltac:(cbn; lia) t' eq_refl). exact E.
  - destruct (is_low_surrogate c); [intros [= <-]; reflexivity|].
    destruct (Encode t); [discriminate|]. cbn [bind]. intros [= <-]. now apply Ht.
Qed.

Lemma unreserved_hexdigit d : 0 <= d < 16 -> unreserved (hexdigit d) = true.
Proof.
  intros Hd. unfold hexdigit, unreserved. rewrite !orb_true_iff.
  destruct (d <? 10) eqn:E; [apply Z.ltb_lt in E | apply Z.ltb_ge in E].
  - left. right. apply in_range_spec. lia.
  - left. left. left. apply in_range_spec. lia.
Qed.

Lemma escape_safe b :
  0 <= b < 256 -> Forall (fun c => url_safe c = true) (escape b).
Proof.
  intros Hb. unfold escape, url_safe. repeat constructor.
  - rewrite (unreserved_hexdigit (b / 16)) by euclid. reflexivity.
  - rewrite (unreserved_hexdigit (b mod 16)) by euclid. reflexivity.
Qed.

Lemma escaped_code_point_safe cp :
  0 <= cp <= 1114111 ->
  Forall (fun c => url_safe c = true) (escape_octets (utf8_encode cp)).
Proof.
  intros Hcp. unfold utf8_encode, escape_octets.
  destruct (cp <=? 127) eqn:E1; [apply Z.leb_le in E1 | apply Z.leb_gt in E1];
    [|destruct (cp <=? 2047) eqn:E2; [apply Z.leb_le in E2 | apply Z.leb_gt in E2];
      [|destruct (cp <=? 65535) eqn:E3;
        [apply Z.leb_le in E3 | apply Z.leb_gt in E3]]];
    cbn [flat_map]; rewrite ?Forall_app; repeat split;
    try apply Forall_nil; apply escape_safe; euclid.
Qed.

(** The output of [Encode] is made of unreserved characters and escapes. *)
Lemma Encode_safe n :
  forall s e, (List.length s <= n)%nat -> code_units s ->
  Encode s = Normal e -> Forall (fun c => url_safe c = true) e.
Proof.
  induction n as [|n IH]; intros s e Hlen Hcu Henc.
  { destruct s; [injection Henc as <-; constructor | cbn in Hlen; lia]. }
  destruct s as [|c t]; [injection Henc as <-; constructor|].
  apply Forall_cons_iff in Hcu as [Hc Ht]. apply code_unit_range in Hc.
  cbn [Encode List.length] in *.
  destruct (unreserved c) eqn:Hu.
  { destruct (Encode t) as [r|] eqn:E; [|discriminate]. injection Henc as <-.
    constructor; [unfold url_safe; now rewrite Hu|].
    apply (IH t r); [lia | assumption | assumption]. }
  destruct (is_high_surrogate c) eqn:Hh.
  - destruct t as [|d t']; [discriminate|].
    apply Forall_cons_iff in Ht as [Hd Ht'].
    destruct (is_low_surrogate d) eqn:Hl; [|discriminate].
    destruct (Encode t') as [r|] eqn:E; [|discriminate]. injection Henc as <-.
    cbn [List.length] in Hlen. apply Forall_app. split.
    + apply escaped_code_point_safe. now apply pair_is_scalar.
    + apply (IH t' r); [lia | assumption | assumption].
  - destruct (is_low_surrogate c); [discriminate|].
    destruct (Encode t) as [r|] eqn:E; [|discriminate]. injection Henc as <-.
    apply Forall_app. split.
    + apply escaped_code_point_safe. lia.
    + apply (IH t r); [lia | assumption | assumption].
Qed.

Lemma Decode_no_percent s :
  Forall (fun c => c <> percent) s -> Decode s = Normal s.
Proof.
  induction 1 as [|c t Hc _ IH]; [reflexivity|].
  now rewrite Decode_plain, IH.
Qed.

Lemma emit_octets_throws octets rest e :
  emit_octets octets rest = Throw e -> e = URIError \/ rest = Throw e.
Proof.
  unfold emit_octets. destruct octets as [os|]; [|intros [= <-]; now left].
  destruct (utf8_decode os); [|intros [= <-]; now left].
  destruct rest; [discriminate|]. cbn [bind]. intros [= <-]. now right.
Qed.

Lemma Decode_throws_URIError s : forall e, Decode s = Throw e -> e = URIError.
Proof.
  remember (List.length s) as n eqn:Hn. revert s Hn.
  induction n as [n IH] using lt_wf_ind. intros s -> e.
  assert (Hrec : forall t e', (List.length t < List.length s)%nat ->
                              Decode t = Throw e' -> e' = URIError).
  { intros t e' Hlt. now apply (IH (List.length t) Hlt t). }
  clear IH. destruct s as [|c t]; [discriminate|]. cbn [Decode].
  destruct (c =? percent).
  2:{ destruct (Decode t) eqn:E; [discriminate|]. cbn [bind]. intros [= <-].
      apply (Hrec t); [cbn; lia | exact E]. }
  destruct t as [|h1 [|h2 t1]]; try (intros [= <-]; reflexivity).
  destruct (ParseHexOctet h1 h2) as [b|]; [|intros [= <-]; reflexivity].
  unfold leading_ones. split_ifs; cbn [List.length] in Hrec.
  - destruct (Decode t1) eqn:E; [discriminate|]. cbn [bind]. intros [= <-].
    apply (Hrec t1); [lia | exact E].
  - intros [= <-]; reflexivity.
  - destruct t1 as [|p1 [|x1 [|y1 t2]]]; try (intros [= <-]; reflexivity).
    intros H. apply emit_octets_throws in H as [-> | H]; [reflexivity|].
    apply (Hrec t2); [cbn; lia | exact H].
  - destruct t1 as [|p1 [|x1 [|y1 [|p2 [|x2 [|y2 t3]]]]]];
      try (intros [= <-]; reflexivity).
    intros H. apply emit_octets_throws in H as [-> | H]; [reflexivity|].
    apply (Hrec t3); [cbn; lia | exact H].
  - destruct t1 as [|p1 [|x1 [|y1 [|p2 [|x2 [|y2 [|p3 [|x3 [|y3 t4]]]]]]]]];
      try (intros [= <-]; reflexivity).
    intros H. apply emit_octets_throws in H as [-> | H]; [reflexivity|].
    apply (Hrec t4); [cbn; lia | exact H].
  - intros [= <-]; reflexivity.
Qed.

End URISafety.

Lemma onClick_Normal name target :
  Card.onClick name = Normal target <->
  exists segment,
    URI.encodeURIComponent name = Normal segment
    /\ target = js "/councillor/" ++ segment.
Proof.
  unfold Card.onClick. destruct (URI.encodeURIComponent name) as [r|]; cbn [bind].
  - split; [intros [= <-]; now exists r | intros (segment & [= <-] & ->); reflexivity].
  - split; [discriminate | intros (segment & H & _); discriminate H].
Qed.

(** X10. On a name of 16-bit code units the click handler raises exactly
    when the name is not well-formed UTF-16 (it has an unpaired surrogate),
    and what it raises is URIError. *)
Theorem click_raises_iff_ill_formed (name : jsstring) (e : JSError) :
  code_units name ->
  (Card.onClick name = Throw e
   <-> e = URIError /\ URI.WellFormedUnicode name = false).
Proof.
  intros Hcu. unfold Card.onClick, URI.encodeURIComponent.
  destruct (URI.Encode name) as [r|e'] eqn:E; cbn [bind].
  - split; [discriminate|]. intros [_ Hwf].
    rewrite (URISafety.Encode_Normal_wf _ name r (le_n _) Hcu E) in Hwf.
    discriminate Hwf.
  - pose proof (URISafety.Encode_throws_URIError name e' E) as ->.
    split; [intros [= <-] | intros [-> _]; reflexivity].
    split; [reflexivity|].
    destruct (URI.WellFormedUnicode name) eqn:Hwf; [|reflexivity].
    destruct (URIFacts.decode_encode name Hwf) as (r & Hr & _).
    unfold URI.encodeURIComponent in Hr. congruence.
Qed.

Lemma click_raises_iff_ill_formed_witness :
  code_units Example.lone_surrogate
  /\ (Card.onClick Example.lone_surrogate = Throw URIError
      <-> URIError = URIError /\ URI.WellFormedUnicode Example.lone_surrogate = false).
Proof.
  assert (H : code_units Example.lone_surrogate) by (repeat constructor).
  split; [exact H | exact (click_raises_iff_ill_formed _ URIError H)].
Defined.

(** X11. When the click handler navigates, the route is [/councillor/]
    followed by one path segment made of unreserved characters and percent
    escapes only: it holds no further slash. *)
Theorem click_route_is_one_segment (name target : jsstring) :
  code_units name ->
  Card.onClick name = Normal target ->
  exists segment,
    target = js "/councillor/" ++ segment
    /\ Forall (fun c => url_safe c = true) segment
    /\ ~ In 47 segment.
Proof.
  intros Hcu Hclick. apply onClick_Normal in Hclick as (segment & Henc & ->).
  exists segment. split; [reflexivity|].
  assert (Hsafe : Forall (fun c => url_safe c = true) segment)
    by exact (URISafety.Encode_safe _ name segment (le_n _) Hcu Henc).
  split; [exact Hsafe|]. intros Hin.
  rewrite Forall_forall in Hsafe. specialize (Hsafe 47 Hin). discriminate Hsafe.
Qed.

Lemma click_route_is_one_segment_witness :
  code_units (js "Jane Doe")
  /\ Card.onClick (js "Jane Doe") = Normal (js "/councillor/Jane%20Doe")
  /\ exists segment,
       js "/councillor/Jane%20Doe" = js "/councillor/" ++ segment
       /\ Forall (fun c => url_safe c = true) segment
       /\ ~ In 47 segment.
Proof.
  assert (H : code_units (js "Jane Doe")) by (repeat constructor).
  split; [exact H|]. split; [reflexivity|].
  exact (click_route_is_one_segment (js "Jane Doe") _ H eq_refl).
Defined.

(** X12. Two well-formed names that lead to the same route are the same
    name: distinct councillors get distinct detail routes. *)
Theorem click_routes_are_distinct (a b : jsstring) :
  URI.WellFormedUnicode a = true ->
  URI.WellFormedUnicode b = true ->
  Card.onClick a = Card.onClick b ->
  a = b.
Proof.
  intros Ha Hb Heq.
  destruct (URIFacts.decode_encode a Ha) as (ea & Hea & Hda).
  destruct (URIFacts.decode_encode b Hb) as (eb & Heb & Hdb).
  unfold Card.onClick in Heq. rewrite Hea, Heb in Heq. cbn [bind] in Heq.
  injection Heq as Heq. subst eb. congruence.
Qed.

Lemma click_routes_are_distinct_witness :
  URI.WellFormedUnicode (js "Jane Doe") = true
  /\ Card.onClick (js "Jane Doe") = Card.onClick (js "Jane Doe")
  /\ js "Jane Doe" = js "Jane Doe".
Proof.
  split; [reflexivity|]. split; [reflexivity|].
  exact (click_routes_are_distinct (js "Jane Doe") (js "Jane Doe")
           eq_refl eq_refl eq_refl).
Defined.

(** ** The detail view: route parameters *)

(** X13. A route parameter without a percent sign is looked up as it is:
    when it is a key of the store, the page of that record is rendered
    under that name. *)
Theorem plain_parameter_is_the_key
        (store : CouncillorResults) (route : jsstring) (data : CouncillorData) :
  route <> [] ->
  Forall (fun c => c <> URI.percent) route ->
  get_own store route = Some data ->
  Detail.CouncillorDetail store (Some route) = Normal (Detail.page route data).
Proof.
  intros Hne Hplain Hkey. unfold Detail.CouncillorDetail, URI.decodeURIComponent.
  destruct route as [|c t]; [congruence|]. cbn [truthy negb].
  rewrite (URISafety.Decode_no_percent _ Hplain). cbn [bind].
  unfold Get. now rewrite Hkey.
Qed.

Lemma plain_parameter_is_the_key_witness :
  js "Jane Doe" <> []
  /\ Forall (fun c => c <> URI.percent) (js "Jane Doe")
  /\ get_own Example.store (js "Jane Doe") = Some Example.jane
  /\ Detail.CouncillorDetail Example.store (Some (js "Jane Doe"))
     = Normal (Detail.page (js "Jane Doe") Example.jane).
Proof.
  assert (Hne : js "Jane Doe" <> []) by discriminate.
  assert (Hplain : Forall (fun c => c <> URI.percent) (js "Jane Doe"))
    by (repeat constructor; discriminate).
  split; [exact Hne|]. split; [exact Hplain|]. split; [reflexivity|].
  exact (plain_parameter_is_the_key Example.store (js "Jane Doe") Example.jane
           Hne Hplain eq_refl).
Defined.

Lemma array_includes_In xs x : array_includes xs x = true <-> In x xs.
Proof.
  unfold array_includes. rewrite existsb_exists. split.
  - intros (y & Hin & Heq). apply jsstring_eqb_eq in Heq. now subst.
  - intros Hin. exists x. split; [assumption | apply jsstring_eqb_refl].
Qed.

(** X14. The detail view raises in two cases only: URIError when the route
    parameter does not decode, TypeError when it decodes to a name that is
    not a key of the store but a property of [Object.prototype]. *)
Theorem detail_raises_exactly
        (store : CouncillorResults) (name : option jsstring) (e : JSError) :
  Detail.CouncillorDetail store name = Throw e
  <-> exists route,
        name = Some route
        /\ ((e = URIError /\ URI.decodeURIComponent route = Throw URIError)
            \/ (e = TypeError
                /\ exists decoded,
                     URI.decodeURIComponent route = Normal decoded
                     /\ ~ In decoded (keys store)
                     /\ In decoded Object_prototype_names)).
Proof.
  unfold Detail.CouncillorDetail. destruct name as [route|].
  2:{ split; [discriminate | intros (route & H & _); discriminate H]. }
  destruct route as [|c t].
  { cbn [truthy negb]. split; [discriminate|].
    intros (route & [= <-] & [[_ H] | (_ & decoded & H & _ & Hin)]).
    - discriminate H.
    - injection H as <-. cbn in Hin. intuition discriminate. }
  cbn [truthy negb]. set (route := c :: t).
  destruct (URI.decodeURIComponent route) as [decoded|e'] eqn:Hd; cbn [bind].
  - unfold Get. destruct (get_own store decoded) as [d|] eqn:Hk.
    + split; [discriminate|].
      intros (r & [= <-] & [[_ H] | (_ & decoded' & H & Hnot & _)]).
      * congruence.
      * assert (decoded' = decoded) by congruence. subst.
        apply get_own_None in Hnot. congruence.
    + destruct (array_includes Object_prototype_names decoded) eqn:Hp.
      * split.
        -- intros [= <-]. exists route. split; [reflexivity|]. right.
           split; [reflexivity|]. exists decoded.
           split; [assumption|]. split; [now apply get_own_None|].
           now apply array_includes_In.
        -- intros (r & [= <-] & [[_ H] | (-> & _)]); [congruence | reflexivity].
      * split; [discriminate|].
        intros (r & [= <-] & [[_ H] | (_ & decoded' & H & _ & Hin)]).
        -- congruence.
        -- assert (decoded' = decoded) by congruence. subst.
           apply array_includes_In in Hin. congruence.
  - pose proof (URISafety.Decode_throws_URIError route e' Hd) as ->. split.
    + intros [= <-]. exists route. split; [reflexivity|]. now left.
    + intros (r & [= <-] & [[-> _] | (_ & decoded & H & _)]);
        [reflexivity | congruence].
Qed.

(** ** Category labels *)

Lemma replace_absent s c r :
  ~ In c s -> replace s [c] r = s.
Proof.
  induction s as [|x s IH]; intros Hnot; [reflexivity|].
  cbn [replace starts_with]. cbn [In] in Hnot.
  destruct (c =? x) eqn:E; [apply Z.eqb_eq in E; intuition congruence|].
  cbn [andb]. rewrite IH by tauto. reflexivity.
Qed.

(** X15. The label of a category replaces the first underscore of its name
    by a space and leaves every later one; a name without an underscore is
    its own label. *)
Theorem label_replaces_first_underscore (before after : jsstring) :
  ~ In 95 before ->
  replace (before ++ 95 :: after) (js "_") (js " ") = before ++ 32 :: after
  /\ replace before (js "_") (js " ") = before.
Proof.
  intros Hnot. split; [|now apply replace_absent].
  change (js "_") with [95]. change (js " ") with [32].
  induction before as [|x before IH].
  - reflexivity.
  - cbn [app replace starts_with]. cbn [In] in Hnot.
    destruct (95 =? x) eqn:E; [apply Z.eqb_eq in E; intuition congruence|].
    cbn [andb]. rewrite IH by tauto. reflexivity.
Qed.

Lemma label_replaces_first_underscore_witness :
  ~ In 95 (js "a")
  /\ replace (js "a_b_c") (js "_") (js " ") = js "a b_c"
  /\ replace (js "a") (js "_") (js " ") = js "a".
Proof.
  assert (H : ~ In 95 (js "a")) by (intros [H | []]; discriminate H).
  split; [exact H|].
  exact (label_replaces_first_underscore (js "a") (js "b_c") H).
Defined.

(** ** From the list to the detail page *)





(** X17. A route parameter that decodes to a name that is neither a key of
    the store nor a property of [Object.prototype] gets the not-found
    message and nothing else. *)
Theorem unknown_plain_name_not_found
        (store : CouncillorResults) (route decoded : jsstring) :
  route <> [] ->
  URI.decodeURIComponent route = Normal decoded ->
  ~ In decoded (keys store) ->
  ~ In decoded Object_prototype_names ->
  Detail.CouncillorDetail store (Some route) = Normal Detail.not_found
  /\ descendants Detail.not_found
     = [Detail.not_found; VText (js "Councillor not found")].
Proof.
  intros Hroute Hdec Hkey Hproto. split; [|reflexivity].
  unfold Detail.CouncillorDetail.
  destruct route; [congruence|]. cbn [truthy negb]. rewrite Hdec. cbn [bind].
  unfold Get. apply get_own_None in Hkey. rewrite Hkey.
  destruct (array_includes Object_prototype_names decoded) eqn:E; [|reflexivity].
  apply array_includes_In in E. contradiction.
Qed.

Lemma unknown_plain_name_not_found_witness :
  js "John%20Roe" <> []
  /\ URI.decodeURIComponent (js "John%20Roe") = Normal (js "John Roe")
  /\ Detail.CouncillorDetail Example.store (Some (js "John%20Roe"))
     = Normal Detail.not_found.
Proof.
  assert (Hne : js "John%20Roe" <> []) by discriminate.
  assert (Hkey : ~ In (js "John Roe") (keys Example.store)).
  { intros [H | []]. discriminate H. }
  assert (Hproto : ~ In (js "John Roe") Object_prototype_names).
  { intros H. apply array_includes_In in H. discriminate H. }
  split; [exact Hne|]. split; [reflexivity|].
  exact (proj1 (unknown_plain_name_not_found Example.store (js "John%20Roe")
                  (js "John Roe") Hne eq_refl Hkey Hproto)).
Defined.

(** X18. In a store whose names are distinct no two cards of the list view
    carry the same [key], whatever the search text. *)
Theorem list_keys_are_distinct
        {CM : CaseMapping} (store : CouncillorResults) (s : jsstring) :
  NoDup (keys store) ->
  NoDup (map (attr_of "key") (cards (ListView.Index store s))).
Proof.
  intros Hnd. rewrite cards_Index, map_map.
  unfold ListView.filteredCouncillors, Object_entries, keys in *.
  cbn [ListView.card attr_of lookup_attr String.eqb Ascii.eqb Bool.eqb].
  induction store as [|[name data] store IH]; [constructor|].
  cbn [map fst] in Hnd. apply NoDup_cons_iff in Hnd as [Hnot Hnd].
  cbn [filter fst]. destruct (ListView.matches s name); [|now apply IH].
  cbn [map fst]. constructor; [|now apply IH].
  rewrite in_map_iff. intros ([name' data'] & [= ->] & Hin).
  apply filter_In in Hin as [Hin _]. apply Hnot.
  change name with (fst (name, data')). now apply in_map.
Qed.

Lemma list_keys_are_distinct_witness :
  NoDup (keys Example.council)
  /\ cards (ListView.Index Example.council [])
     = [ListView.card (js "Jane Doe", Example.jane);
        ListView.card (Example.zoe, Example.jane_bare)]
  /\ NoDup (map (attr_of "key") (cards (ListView.Index Example.council []))).
Proof.
  assert (Hnd : NoDup (keys Example.council)).
  { repeat constructor; [intros [H | []]; discriminate H | intros []]. }
  split; [exact Hnd|]. split; [reflexivity|].
  exact (list_keys_are_distinct Example.council [] Hnd).
Defined.
